(** * The ISL avatar gesture engine ([avatar/avatar_3d.py])

    A shallow embedding of the skeletal gesture-animation engine: the
    joint store, the skeleton, the ten gesture builders, the player
    ([animate_gesture]), the compositor ([animate_text]) and the exporter
    ([export_animation]).

    Modelling decisions.
    - Python [float]s are read as real numbers ([R]); [math.sin] and
      [math.pi] are [sin] and [PI].  Rounding is not modelled there; where
      rounding decides, the module [Float64] computes in binary64.
    - [Joint] objects are mutable and shared, so they live in a store
      (a list indexed by address).  A skeleton or a frame's [joints]
      dictionary maps names to addresses; [dict.copy()] copies that map
      and not the objects it points to.
    - Dictionaries keep insertion order (a list of key/value pairs with
      distinct keys).
    - Exceptions and the logger are part of the monad [Py].
    - Text is a string of bytes; [upper], [split] and [letters] follow
      Python on ASCII text ([ascii_text]); Python also maps and splits
      on characters beyond ASCII, which the bytes do not show.
    - The engine is started in an empty store ([empty_world]); the lemmas
      [create_skeleton_run] and [init_run] show that start-up returns
      the values written out as [sk0], [rest_heap], [catalog], [engine]
      and [engine_heap]. *)

From Stdlib Require Import Reals Lra String Ascii List.
From Stdlib Require PrimFloat Uint63.
From stdpp Require Import base list strings sorting.
Import ListNotations.

Open Scope string_scope.
Open Scope list_scope.
Open Scope R_scope.

(** ** Python runtime: exceptions, store, log *)

Inductive exn :=
| KeyError (key : string)
| IndexError
| ZeroDivisionError
| BadRef (* an address outside the store; no Python program can build one *).

Definition vec3 : Type := R * R * R.

(** [class Joint] *)
Record Joint := mkJoint {
  name : string;
  position : vec3;
  rotation : vec3;
  parent : option string;
  children : list string
}.

Definition ref := nat.

Record world := mkWorld {
  heap : list Joint;
  log : list string
}.

Definition Py (A : Type) : Type := world -> exn + (A * world).

Definition ret {A} (a : A) : Py A := fun w => inr (a, w).

Definition bind {A B} (m : Py A) (k : A -> Py B) : Py B :=
  fun w => match m w with
           | inl e => inl e
           | inr (a, w') => k a w'
           end.

Definition raise {A} (e : exn) : Py A := fun _ => inl e.

Notation "x <- m ;; k" := (bind m (fun x => k))
  (at level 100, m at next level, right associativity).
Notation "m ;;; k" := (bind m (fun _ => k))
  (at level 100, right associativity).

Definition alloc (j : Joint) : Py ref :=
  fun w => inr (length (heap w), mkWorld (heap w ++ [j]) (log w)).

Definition deref (a : ref) : Py Joint :=
  fun w => match heap w !! a with
           | Some j => inr (j, w)
           | None => inl BadRef
           end.

Definition update (a : ref) (f : Joint -> Joint) : Py unit :=
  fun w => match heap w !! a with
           | Some j => inr (tt, mkWorld (<[a := f j]> (heap w)) (log w))
           | None => inl BadRef
           end.

(** [logger.warning(msg)] *)
Definition warning (msg : string) : Py unit :=
  fun w => inr (tt, mkWorld (heap w) (log w ++ [msg])).

(** Attribute assignments [j.position = v], [j.rotation = v] and
    [j.children.append(c)]. *)
Definition with_position (v : vec3) (j : Joint) : Joint :=
  mkJoint (name j) v (rotation j) (parent j) (children j).

Definition with_rotation (v : vec3) (j : Joint) : Joint :=
  mkJoint (name j) (position j) v (parent j) (children j).

Definition with_child (c : string) (j : Joint) : Joint :=
  mkJoint (name j) (position j) (rotation j) (parent j) (children j ++ [c]).

Definition set_position (a : ref) (v : vec3) : Py unit := update a (with_position v).
Definition set_rotation (a : ref) (v : vec3) : Py unit := update a (with_rotation v).
Definition children_append (a : ref) (c : string) : Py unit := update a (with_child c).

(** ** Dictionaries *)

Definition dict (V : Type) : Type := list (string * V).

Fixpoint dict_get {V} (k : string) (d : dict V) : option V :=
  match d with
  | [] => None
  | (k', v) :: d' => if String.eqb k k' then Some v else dict_get k d'
  end.

(** [k in d] *)
Definition dict_mem {V} (k : string) (d : dict V) : bool :=
  match dict_get k d with Some _ => true | None => false end.

(** [d[k]] *)
Definition dict_getitem {V} (d : dict V) (k : string) : Py V :=
  match dict_get k d with
  | Some v => ret v
  | None => raise (KeyError k)
  end.

(** [d[k] = v] *)
Fixpoint dict_set {V} (k : string) (v : V) (d : dict V) : dict V :=
  match d with
  | [] => [(k, v)]
  | (k', v') :: d' =>
      if String.eqb k k' then (k, v) :: d' else (k', v') :: dict_set k v d'
  end.

(** [d.copy()]: a new dictionary holding the same values (for a skeleton,
    the same addresses). *)
Definition dict_copy {V} (d : dict V) : dict V := d.

Definition dict_keys {V} (d : dict V) : list string := map fst d.

(** ** Loops *)

(** [for x in xs: acc = body(x, acc)] *)
Fixpoint for_each {A S} (xs : list A) (acc : S) (body : A -> S -> Py S) : Py S :=
  match xs with
  | [] => ret acc
  | x :: xs' => acc' <- body x acc ;; for_each xs' acc' body
  end.

(** [for i in range(n)] *)
Definition for_range {S} (n : nat) (acc : S) (body : nat -> S -> Py S) : Py S :=
  for_each (seq 0 n) acc body.

(** ** Skeleton *)

(** [Joint(name, position, rotation, parent=None, children=None)] with
    [__post_init__] replacing a missing [children] by a fresh empty list. *)
Definition Joint_new (n : string) (p r : vec3)
    (par : option string) (ch : option (list string)) : Py ref :=
  alloc (mkJoint n p r par (match ch with None => [] | Some l => l end)).

(** Truth value of [joint.parent]: [None] and the empty string are false. *)
Definition parent_truthy (p : option string) : option string :=
  match p with
  | Some "" => None
  | Some s => Some s
  | None => None
  end.

Definition _create_skeleton : Py (dict ref) :=
  head <- Joint_new "head" (0, 1.8, 0) (0, 0, 0) None None ;;
  neck <- Joint_new "neck" (0, 1.6, 0) (0, 0, 0) None (Some ["head"]) ;;
  left_shoulder <- Joint_new "left_shoulder" (-0.3, 1.5, 0) (0, 0, 0) None (Some ["left_elbow"]) ;;
  left_elbow <- Joint_new "left_elbow" (-0.5, 1.2, 0) (0, 0, 0) (Some "left_shoulder") (Some ["left_wrist"]) ;;
  left_wrist <- Joint_new "left_wrist" (-0.7, 0.9, 0) (0, 0, 0) (Some "left_elbow") (Some ["left_hand"]) ;;
  left_hand <- Joint_new "left_hand" (-0.8, 0.7, 0) (0, 0, 0) (Some "left_wrist") None ;;
  right_shoulder <- Joint_new "right_shoulder" (0.3, 1.5, 0) (0, 0, 0) None (Some ["right_elbow"]) ;;
  right_elbow <- Joint_new "right_elbow" (0.5, 1.2, 0) (0, 0, 0) (Some "right_shoulder") (Some ["right_wrist"]) ;;
  right_wrist <- Joint_new "right_wrist" (0.7, 0.9, 0) (0, 0, 0) (Some "right_elbow") (Some ["right_hand"]) ;;
  right_hand <- Joint_new "right_hand" (0.8, 0.7, 0) (0, 0, 0) (Some "right_wrist") None ;;
  spine <- Joint_new "spine" (0, 1.3, 0) (0, 0, 0) None (Some ["left_shoulder"; "right_shoulder"; "neck"]) ;;
  hip <- Joint_new "hip" (0, 0.9, 0) (0, 0, 0) None (Some ["spine"]) ;;
  let skeleton : dict ref :=
    [ ("head", head); ("neck", neck);
      ("left_shoulder", left_shoulder); ("left_elbow", left_elbow);
      ("left_wrist", left_wrist); ("left_hand", left_hand);
      ("right_shoulder", right_shoulder); ("right_elbow", right_elbow);
      ("right_wrist", right_wrist); ("right_hand", right_hand);
      ("spine", spine); ("hip", hip) ] in
  (* Set parent relationships *)
  for_each skeleton tt (fun '(joint_name, joint) _ =>
    j <- deref joint ;;
    match parent_truthy (parent j) with
    | Some p =>
        pa <- dict_getitem skeleton p ;;
        children_append pa joint_name
    | None => ret tt
    end) ;;;
  ret skeleton.

(** ** Gesture library *)

(** [class GestureFrame] *)
Record GestureFrame := mkFrame {
  timestamp : R;
  joints : dict ref
}.

(** [joints[k].rotation = v] and [joints[k].position = v] *)
Definition assign_rotation (joints : dict ref) (k : string) (v : vec3) : Py unit :=
  a <- dict_getitem joints k ;; set_rotation a v.

Definition assign_position (joints : dict ref) (k : string) (v : vec3) : Py unit :=
  a <- dict_getitem joints k ;; set_position a v.

Section Builders.

(** [self.skeleton] *)
Variable skeleton : dict ref.

Definition _create_hello_gesture : Py (list GestureFrame) :=
  let frames := [] in
  (* Initial position *)
  let initial_joints := dict_copy skeleton in
  let frames := frames ++ [mkFrame 0.0 initial_joints] in
  (* Wave motion *)
  for_range 10 frames (fun i frames =>
    let t := INR i / 9.0 in
    let joints := dict_copy skeleton in
    (* Right hand wave *)
    let wave_angle := sin (t * PI * 2) * 0.3 in
    assign_rotation joints "right_wrist" (0, 0, wave_angle) ;;;
    assign_rotation joints "right_hand" (0, 0, wave_angle) ;;;
    ret (frames ++ [mkFrame (t * 2.0) joints])).

Definition _create_thank_you_gesture : Py (list GestureFrame) :=
  let frames := [] in
  let initial_joints := dict_copy skeleton in
  let frames := frames ++ [mkFrame 0.0 initial_joints] in
  (* Both hands to chest *)
  for_range 15 frames (fun i frames =>
    let t := INR i / 14.0 in
    let joints := dict_copy skeleton in
    let chest_y := 1.2 + t * 0.3 in
    assign_position joints "left_hand" (-0.2, chest_y, 0.1) ;;;
    assign_position joints "right_hand" (0.2, chest_y, 0.1) ;;;
    ret (frames ++ [mkFrame (t * 1.5) joints])).

Definition _create_yes_gesture : Py (list GestureFrame) :=
  let frames := [] in
  let initial_joints := dict_copy skeleton in
  let frames := frames ++ [mkFrame 0.0 initial_joints] in
  (* Nodding motion *)
  for_range 8 frames (fun i frames =>
    let t := INR i / 7.0 in
    let joints := dict_copy skeleton in
    let nod_angle := sin (t * PI) * 0.2 in
    assign_rotation joints "head" (nod_angle, 0, 0) ;;;
    assign_rotation joints "neck" (nod_angle, 0, 0) ;;;
    ret (frames ++ [mkFrame (t * 1.0) joints])).

Definition _create_no_gesture : Py (list GestureFrame) :=
  let frames := [] in
  let initial_joints := dict_copy skeleton in
  let frames := frames ++ [mkFrame 0.0 initial_joints] in
  (* Head shake motion *)
  for_range 12 frames (fun i frames =>
    let t := INR i / 11.0 in
    let joints := dict_copy skeleton in
    let shake_angle := sin (t * PI * 4) * 0.3 in
    assign_rotation joints "head" (0, 0, shake_angle) ;;;
    assign_rotation joints "neck" (0, 0, shake_angle) ;;;
    ret (frames ++ [mkFrame (t * 1.2) joints])).

Definition _create_good_gesture : Py (list GestureFrame) :=
  let frames := [] in
  let initial_joints := dict_copy skeleton in
  let frames := frames ++ [mkFrame 0.0 initial_joints] in
  (* Thumbs up motion *)
  for_range 10 frames (fun i frames =>
    let t := INR i / 9.0 in
    let joints := dict_copy skeleton in
    assign_rotation joints "right_hand" (0, 0, 1.57) ;;;
    assign_rotation joints "right_wrist" (0, 0, 0.3) ;;;
    ret (frames ++ [mkFrame (t * 1.0) joints])).

Definition _create_bad_gesture : Py (list GestureFrame) :=
  let frames := [] in
  let initial_joints := dict_copy skeleton in
  let frames := frames ++ [mkFrame 0.0 initial_joints] in
  (* Thumbs down motion *)
  for_range 10 frames (fun i frames =>
    let t := INR i / 9.0 in
    let joints := dict_copy skeleton in
    assign_rotation joints "right_hand" (0, 0, -1.57) ;;;
    assign_rotation joints "right_wrist" (0, 0, -0.3) ;;;
    ret (frames ++ [mkFrame (t * 1.0) joints])).

Definition _create_water_gesture : Py (list GestureFrame) :=
  let frames := [] in
  let initial_joints := dict_copy skeleton in
  let frames := frames ++ [mkFrame 0.0 initial_joints] in
  (* Water drinking motion *)
  for_range 15 frames (fun i frames =>
    let t := INR i / 14.0 in
    let joints := dict_copy skeleton in
    let mouth_y := 1.6 - t * 0.4 in
    assign_position joints "right_hand" (0.1, mouth_y, 0.2) ;;;
    assign_rotation joints "right_elbow" (0, 0, t * 0.5) ;;;
    ret (frames ++ [mkFrame (t * 2.0) joints])).

Definition _create_food_gesture : Py (list GestureFrame) :=
  let frames := [] in
  let initial_joints := dict_copy skeleton in
  let frames := frames ++ [mkFrame 0.0 initial_joints] in
  (* Eating motion *)
  for_range 12 frames (fun i frames =>
    let t := INR i / 11.0 in
    let joints := dict_copy skeleton in
    let mouth_y := 1.6 - Rabs (t - 0.5) * 0.8 in
    assign_position joints "right_hand" (0.1, mouth_y, 0.2) ;;;
    ret (frames ++ [mkFrame (t * 1.5) joints])).

Definition _create_home_gesture : Py (list GestureFrame) :=
  let frames := [] in
  let initial_joints := dict_copy skeleton in
  let frames := frames ++ [mkFrame 0.0 initial_joints] in
  (* House shape with hands *)
  for_range 20 frames (fun i frames =>
    let t := INR i / 19.0 in
    let joints := dict_copy skeleton in
    (if Rlt_dec t 0.5 then
       (* Building up *)
       let height := t * 0.4 in
       assign_position joints "left_hand" (-0.3, 1.2 + height, 0.1) ;;;
       assign_position joints "right_hand" (0.3, 1.2 + height, 0.1)
     else
       (* Roof *)
       let roof_t := (t - 0.5) * 2 in
       assign_position joints "left_hand" (-0.3, 1.4, 0.1) ;;;
       assign_position joints "right_hand" (0.3, 1.4, 0.1)) ;;;
    ret (frames ++ [mkFrame (t * 2.5) joints])).

Definition _create_school_gesture : Py (list GestureFrame) :=
  let frames := [] in
  let initial_joints := dict_copy skeleton in
  let frames := frames ++ [mkFrame 0.0 initial_joints] in
  (* Writing motion *)
  for_range 15 frames (fun i frames =>
    let t := INR i / 14.0 in
    let joints := dict_copy skeleton in
    assign_position joints "right_hand" (0.2 + t * 0.3, 1.0, 0.1) ;;;
    assign_rotation joints "right_wrist" (0, 0, t * 0.2) ;;;
    ret (frames ++ [mkFrame (t * 2.0) joints])).

(** The dictionary display evaluates its values in source order. *)
Definition _load_gesture_database : Py (dict (list GestureFrame)) :=
  hello <- _create_hello_gesture ;;
  thank_you <- _create_thank_you_gesture ;;
  yes <- _create_yes_gesture ;;
  no <- _create_no_gesture ;;
  good <- _create_good_gesture ;;
  bad <- _create_bad_gesture ;;
  water <- _create_water_gesture ;;
  food <- _create_food_gesture ;;
  home <- _create_home_gesture ;;
  school <- _create_school_gesture ;;
  let gestures :=
    [ ("HELLO", hello); ("THANK_YOU", thank_you); ("YES", yes); ("NO", no);
      ("GOOD", good); ("BAD", bad); ("WATER", water); ("FOOD", food);
      ("HOME", home); ("SCHOOL", school) ] in
  ret gestures.

End Builders.

(** ** The engine *)

(** [class ISLAvatar] *)
Record ISLAvatar := mkAvatar {
  skeleton : dict ref;
  gesture_database : dict (list GestureFrame);
  current_pose : dict ref;
  animation_speed : R
}.

(** [ISLAvatar.__init__] *)
Definition ISLAvatar_init : Py ISLAvatar :=
  skeleton <- _create_skeleton ;;
  gesture_database <- _load_gesture_database skeleton ;;
  ret (mkAvatar skeleton gesture_database [] 1.0).

(** [xs[-1]] *)
Definition list_last {A} (xs : list A) : Py A :=
  match last xs with
  | Some x => ret x
  | None => raise IndexError
  end.

(** [x / y] on floats *)
Definition float_div (x y : R) : Py R :=
  if Req_dec_T y 0 then raise ZeroDivisionError else ret (x / y).

(** Truth value of an optional float: [None] and [0.0] are false. *)
Definition float_truthy (d : option R) : option R :=
  match d with
  | Some x => if Req_dec_T x 0 then None else Some x
  | None => None
  end.

Definition not_found_msg (gesture_name : string) : string :=
  String.append "Gesture '" (String.append gesture_name "' not found in database").

Definition animate_gesture (self : ISLAvatar) (gesture_name : string)
    (duration : option R) : Py (list GestureFrame) :=
  if negb (dict_mem gesture_name (gesture_database self)) then
    warning (not_found_msg gesture_name) ;;;
    ret []
  else
    gesture_frames <- dict_getitem (gesture_database self) gesture_name ;;
    match float_truthy duration with
    | Some duration =>
        (* Scale animation to desired duration *)
        last_frame <- list_last gesture_frames ;;
        let original_duration := timestamp last_frame in
        scale_factor <- float_div duration original_duration ;;
        for_each gesture_frames [] (fun frame scaled_frames =>
          let scaled_frame :=
            mkFrame (timestamp frame * scale_factor) (joints frame) in
          ret (scaled_frames ++ [scaled_frame]))
    | None => ret gesture_frames
    end.

(** *** Text: [str.upper] and [str.split] on ASCII text *)

Definition is_space (c : ascii) : bool :=
  let n := nat_of_ascii c in
  (((9 <=? n) && (n <=? 13)) || ((28 <=? n) && (n <=? 32)))%nat.

Definition upper_char (c : ascii) : ascii :=
  let n := nat_of_ascii c in
  if ((97 <=? n) && (n <=? 122))%nat then ascii_of_nat (n - 32) else c.

Fixpoint upper (s : string) : string :=
  match s with
  | EmptyString => EmptyString
  | String c s' => String (upper_char c) (upper s')
  end.

(** [cur] is the token being read, in reverse. *)
Fixpoint split_from (s : string) (cur : list ascii) : list string :=
  match s with
  | EmptyString =>
      match cur with
      | [] => []
      | _ => [string_of_list_ascii (rev cur)]
      end
  | String c s' =>
      if is_space c then
        match cur with
        | [] => split_from s' []
        | _ => string_of_list_ascii (rev cur) :: split_from s' []
        end
      else split_from s' (c :: cur)
  end.

Definition split (s : string) : list string := split_from s [].

(** The characters of a word, each as a one-character string. *)
Definition letters (word : string) : list string :=
  map (fun c => String c EmptyString) (list_ascii_of_string word).

(** The frame appended for [frame] when the clock shows [current_time]. *)
Definition offset_frame (current_time : R) (frame : GestureFrame) : GestureFrame :=
  mkFrame (timestamp frame + current_time) (joints frame).

(** The statements both branches of [animate_text] share, for a word
    (pause 0.5) and for a letter (pause 0.2): play the gesture, append
    every frame shifted by the clock, then
    [current_time += gesture_frames[-1].timestamp + pause]. *)
Definition append_offset (self : ISLAvatar) (token : string) (pause : R)
    (st : list GestureFrame * R) : Py (list GestureFrame * R) :=
  let '(all_frames, current_time) := st in
  gesture_frames <- animate_gesture self token None ;;
  all_frames <- for_each gesture_frames all_frames (fun frame all_frames =>
    ret (all_frames ++ [offset_frame current_time frame])) ;;
  last_frame <- list_last gesture_frames ;;
  ret (all_frames, current_time + (timestamp last_frame + pause)).

(** One round of the inner loop: [for letter in word]. *)
Definition spell_letter (self : ISLAvatar) (letter : string)
    (st : list GestureFrame * R) : Py (list GestureFrame * R) :=
  if dict_mem letter (gesture_database self) then
    append_offset self letter 0.2 st
  else ret st.

(** One round of the outer loop: [for word in words]. *)
Definition animate_word (self : ISLAvatar) (word : string)
    (st : list GestureFrame * R) : Py (list GestureFrame * R) :=
  if dict_mem word (gesture_database self) then
    (* Offset timestamps, then add pause between words *)
    append_offset self word 0.5 st
  else
    (* Spell out unknown words *)
    for_each (letters word) st (spell_letter self).

Definition animate_text (self : ISLAvatar) (text : string) : Py (list GestureFrame) :=
  let words := split (upper text) in
  let all_frames := [] in
  let current_time := 0.0 in
  st <- for_each words (all_frames, current_time) (animate_word self) ;;
  ret (fst st).

(** [get_available_gestures] *)
Definition get_available_gestures (self : ISLAvatar) : list string :=
  dict_keys (gesture_database self).

(** *** Export *)

(** The Python value handed to [json.dumps]. *)
#[local] Set Warnings "-register-all".
Inductive pyval :=
| PFloat (x : R)
| PTuple (items : list pyval)
| PList (items : list pyval)
| PDict (entries : list (string * pyval)).

(** A returned string: a literal, or the text [json.dumps(v, indent=n)],
    which is not spelled out (it depends on the printing of floats). *)
Inductive py_str :=
| Str (s : string)
| json_dumps (v : pyval) (indent : nat).

Definition tuple3 (v : vec3) : pyval :=
  let '(x, y, z) := v in PTuple [PFloat x; PFloat y; PFloat z].

Definition unsupported_msg (format : string) : string :=
  String.append "Export format '" (String.append format "' not supported yet").

Definition joint_record (j : Joint) : pyval :=
  PDict [("position", tuple3 (position j)); ("rotation", tuple3 (rotation j))].

(** One round of [for joint_name, joint in frame.joints.items()]. *)
Definition export_joint (entry : string * ref)
    (joints_data : dict pyval) : Py (dict pyval) :=
  let '(joint_name, joint) := entry in
  j <- deref joint ;;
  ret (dict_set joint_name (joint_record j) joints_data).

(** One round of [for frame in frames]. *)
Definition export_frame (frame : GestureFrame)
    (frames_data : list pyval) : Py (list pyval) :=
  joints_data <- for_each (joints frame) [] export_joint ;;
  let frame_data :=
    PDict [("timestamp", PFloat (timestamp frame)); ("joints", PDict joints_data)] in
  ret (frames_data ++ [frame_data]).

Definition export_animation (self : ISLAvatar) (frames : list GestureFrame)
    (format : string) : Py py_str :=
  if String.eqb format "json" then
    let duration :=
      match last frames with Some f => timestamp f | None => 0.0 end in
    frames_data <- for_each frames [] export_frame ;;
    let animation_data :=
      PDict [("frames", PList frames_data); ("duration", PFloat duration)] in
    ret (json_dumps animation_data 2)
  else
    warning (unsupported_msg format) ;;;
    ret (Str "").

(** ** The engine after start-up *)

Definition empty_world : world := mkWorld [] [].


(** The skeleton dictionary: the twelve names in insertion order, with the
    addresses their [Joint] objects receive in a fresh store. *)
Definition sk0 : dict ref :=
  [ ("head", 0%nat); ("neck", 1%nat);
    ("left_shoulder", 2%nat); ("left_elbow", 3%nat);
    ("left_wrist", 4%nat); ("left_hand", 5%nat);
    ("right_shoulder", 6%nat); ("right_elbow", 7%nat);
    ("right_wrist", 8%nat); ("right_hand", 9%nat);
    ("spine", 10%nat); ("hip", 11%nat) ].

(** The store right after [_create_skeleton]: the rest pose. *)
Definition rest_heap : list Joint :=
  [ mkJoint "head" (0, 1.8, 0) (0, 0, 0) None [];
    mkJoint "neck" (0, 1.6, 0) (0, 0, 0) None ["head"];
    mkJoint "left_shoulder" (-0.3, 1.5, 0) (0, 0, 0) None ["left_elbow"; "left_elbow"];
    mkJoint "left_elbow" (-0.5, 1.2, 0) (0, 0, 0) (Some "left_shoulder") ["left_wrist"; "left_wrist"];
    mkJoint "left_wrist" (-0.7, 0.9, 0) (0, 0, 0) (Some "left_elbow") ["left_hand"; "left_hand"];
    mkJoint "left_hand" (-0.8, 0.7, 0) (0, 0, 0) (Some "left_wrist") [];
    mkJoint "right_shoulder" (0.3, 1.5, 0) (0, 0, 0) None ["right_elbow"; "right_elbow"];
    mkJoint "right_elbow" (0.5, 1.2, 0) (0, 0, 0) (Some "right_shoulder") ["right_wrist"; "right_wrist"];
    mkJoint "right_wrist" (0.7, 0.9, 0) (0, 0, 0) (Some "right_elbow") ["right_hand"; "right_hand"];
    mkJoint "right_hand" (0.8, 0.7, 0) (0, 0, 0) (Some "right_wrist") [];
    mkJoint "spine" (0, 1.3, 0) (0, 0, 0) None ["left_shoulder"; "right_shoulder"; "neck"];
    mkJoint "hip" (0, 0.9, 0) (0, 0, 0) None ["spine"] ].

Definition rest_world : world := mkWorld rest_heap [].

(** The frames a builder returns: the initial frame, then [n] samples at
    [i / d * total]; every frame holds the skeleton dictionary. *)
Definition samples (n : nat) (d total : R) : list GestureFrame :=
  mkFrame 0.0 sk0 :: map (fun i => mkFrame (INR i / d * total) sk0) (seq 0 n).

Definition catalog : dict (list GestureFrame) :=
  [ ("HELLO", samples 10 9.0 2.0);
    ("THANK_YOU", samples 15 14.0 1.5);
    ("YES", samples 8 7.0 1.0);
    ("NO", samples 12 11.0 1.2);
    ("GOOD", samples 10 9.0 1.0);
    ("BAD", samples 10 9.0 1.0);
    ("WATER", samples 15 14.0 2.0);
    ("FOOD", samples 12 11.0 1.5);
    ("HOME", samples 20 19.0 2.5);
    ("SCHOOL", samples 15 14.0 2.0) ].

Definition engine : ISLAvatar := mkAvatar sk0 catalog [] 1.0.

(** The store once the ten builders have run: each field holds the value
    of the last assignment made to it. *)
Definition engine_heap : list Joint :=
  [ mkJoint "head" (0, 1.8, 0) (0, 0, sin (INR 11 / 11.0 * PI * 4) * 0.3) None [];
    mkJoint "neck" (0, 1.6, 0) (0, 0, sin (INR 11 / 11.0 * PI * 4) * 0.3) None ["head"];
    mkJoint "left_shoulder" (-0.3, 1.5, 0) (0, 0, 0) None ["left_elbow"; "left_elbow"];
    mkJoint "left_elbow" (-0.5, 1.2, 0) (0, 0, 0) (Some "left_shoulder") ["left_wrist"; "left_wrist"];
    mkJoint "left_wrist" (-0.7, 0.9, 0) (0, 0, 0) (Some "left_elbow") ["left_hand"; "left_hand"];
    mkJoint "left_hand" (-0.3, 1.4, 0.1) (0, 0, 0) (Some "left_wrist") [];
    mkJoint "right_shoulder" (0.3, 1.5, 0) (0, 0, 0) None ["right_elbow"; "right_elbow"];
    mkJoint "right_elbow" (0.5, 1.2, 0) (0, 0, INR 14 / 14.0 * 0.5) (Some "right_shoulder") ["right_wrist"; "right_wrist"];
    mkJoint "right_wrist" (0.7, 0.9, 0) (0, 0, INR 14 / 14.0 * 0.2) (Some "right_elbow") ["right_hand"; "right_hand"];
    mkJoint "right_hand" (0.2 + INR 14 / 14.0 * 0.3, 1.0, 0.1) (0, 0, -1.57) (Some "right_wrist") [];
    mkJoint "spine" (0, 1.3, 0) (0, 0, 0) None ["left_shoulder"; "right_shoulder"; "neck"];
    mkJoint "hip" (0, 0.9, 0) (0, 0, 0) None ["spine"] ].

Definition engine_world : world := mkWorld engine_heap [].

(** The engine as the program gets it: the result of [ISLAvatar()] in a
    fresh store. *)
Definition started (av : ISLAvatar) (w : world) : Prop :=
  ISLAvatar_init empty_world = inr (av, w).

(** ** Reading the skeleton *)

(** The joint object a dictionary holds under a name. *)
Definition lookup_joint (w : world) (d : dict ref) (n : string) : option Joint :=
  match dict_get n d with
  | Some a => heap w !! a
  | None => None
  end.

(** Position and rotation of the joint a dictionary holds under a name. *)
Definition pose (w : world) (d : dict ref) (n : string) : option (vec3 * vec3) :=
  match lookup_joint w d n with
  | Some j => Some (position j, rotation j)
  | None => None
  end.

(** Walk along [children] from a joint, parents first; [None] when a
    child names no joint or when [fuel] rounds do not reach the leaves
    (which is what a cycle causes, whatever the fuel). *)
Fixpoint traverse (fuel : nat) (w : world) (d : dict ref) (n : string)
    : option (list string) :=
  match fuel with
  | O => None
  | S fuel' =>
      match lookup_joint w d n with
      | None => None
      | Some j =>
          let fix walk (cs : list string) : option (list string) :=
            match cs with
            | [] => Some []
            | c :: cs' =>
                match traverse fuel' w d c, walk cs' with
                | Some l1, Some l2 => Some (l1 ++ l2)
                | _, _ => None
                end
            end in
          match walk (children j) with
          | Some l => Some (n :: l)
          | None => None
          end
      end
  end.

(** The shape claimed for the skeleton: a tree of [count] joints rooted at
    ["hip"], parent and children fields consistent in both directions, and
    the walk from ["hip"] meeting every joint exactly once. *)
Definition tree_of (count : nat) (w : world) (d : dict ref) : Prop :=
  length d = count /\
  (forall n j, lookup_joint w d n = Some j -> n <> "hip" ->
     exists p, parent j = Some p /\ dict_mem p d = true) /\
  (forall n j p, lookup_joint w d n = Some j -> parent j = Some p ->
     exists pj, lookup_joint w d p = Some pj /\ In n (children pj)) /\
  (forall n j c, lookup_joint w d n = Some j -> In c (children j) ->
     exists cj, lookup_joint w d c = Some cj /\ parent cj = Some n) /\
  (forall n j, lookup_joint w d n = Some j -> NoDup (children j)) /\
  (exists fuel l, traverse fuel w d "hip" = Some l /\ NoDup l /\
     forall n, In n l <-> In n (dict_keys d)).

(** ** Vocabulary of the statements *)

(** A frame with its timestamp multiplied by [k]. *)
Definition scale_frame (k : R) (f : GestureFrame) : GestureFrame :=
  mkFrame (timestamp f * k) (joints f).

Definition timestamps (frames : list GestureFrame) : list R :=
  map timestamp frames.

(** Timestamps never decrease along the sequence. *)
Definition nondecreasing (frames : list GestureFrame) : Prop :=
  StronglySorted Rle (timestamps frames).

(** A compositor state (frames so far, clock) in which no frame lies
    after the clock and the frames are in order. *)
Definition tidy (st : list GestureFrame * R) : Prop :=
  nondecreasing (fst st) /\ forall f, In f (fst st) -> timestamp f <= snd st.

(** The data-model invariant of a catalog: entries are non-empty, in
    order, and start no earlier than 0. *)
Definition well_timed (db : dict (list GestureFrame)) : Prop :=
  forall name g, dict_get name db = Some g ->
    g <> [] /\ nondecreasing g /\ forall f, In f g -> 0 <= timestamp f.

(** An engine whose catalog also holds a gesture for the letter Z. *)
Definition engine_with_Z : ISLAvatar :=
  mkAvatar sk0 (catalog ++ [("Z", samples 10 9.0 2.0)]) [] 1.0.

(** What the exporter writes for one entry of a frame's dictionary and
    for one frame, read in the store [w]. *)
Definition joint_exported (w : world) (entry : string * ref)
    (out : string * pyval) : Prop :=
  fst out = fst entry /\
  exists j, heap w !! snd entry = Some j /\
    snd out = PDict [("position", tuple3 (position j));
                     ("rotation", tuple3 (rotation j))].

Definition frame_exported (w : world) (f : GestureFrame) (out : pyval) : Prop :=
  exists joints_data,
    out = PDict [("timestamp", PFloat (timestamp f)); ("joints", PDict joints_data)] /\
    Forall2 (joint_exported w) (joints f) joints_data.

(** A frame sequence the store can hold: names are distinct within a
    dictionary and every address points into the store. *)
Definition frames_in_store (w : world) (frames : list GestureFrame) : Prop :=
  forall f, In f frames ->
    NoDup (dict_keys (joints f)) /\
    forall n a, In (n, a) (joints f) -> is_Some (heap w !! a).

(** Sharing: the skeleton names [count] distinct objects, the catalog has
    ten gestures, every frame of every gesture holds the skeleton's own
    name-to-object map, and so any two frames show the same pose. *)
Definition shared_skeleton (count : nat) (av : ISLAvatar) (w : world) : Prop :=
  length (skeleton av) = count /\
  NoDup (map snd (skeleton av)) /\
  length (gesture_database av) = 10%nat /\
  (forall name frames f,
     dict_get name (gesture_database av) = Some frames -> In f frames ->
     joints f = skeleton av) /\
  (forall name1 frames1 f1 name2 frames2 f2 joint,
     dict_get name1 (gesture_database av) = Some frames1 -> In f1 frames1 ->
     dict_get name2 (gesture_database av) = Some frames2 -> In f2 frames2 ->
     pose w (joints f1) joint = pose w (joints f2) joint /\
     pose w (joints f1) joint = pose w (skeleton av) joint).

(** ** The caller in [backend/app.py] *)

(** One element of [gesture_sequence]: the dictionary with the keys
    ['gesture'], ['duration'] and ['timestamp']. *)
Record gesture_entry := mkEntry {
  entry_gesture : string;
  entry_duration : R;
  entry_timestamp : R
}.

(** The body of the [try] in [text_to_gesture] when the avatar system is
    loaded: compose the text and describe the first ten frames. *)
Definition text_to_gesture_sequence (avatar_system : ISLAvatar)
    (text : string) : Py (list gesture_entry) :=
  gesture_frames <- animate_text avatar_system text ;;
  let gesture_sequence := [] in
  for_each (take 10 gesture_frames) gesture_sequence (fun frame gesture_sequence =>
    ret (gesture_sequence ++ [mkEntry "GESTURE" 1.0 (timestamp frame)])).

(** A computation that, when it returns, has changed neither store nor
    log; one that has not written to the store. *)
Definition quiet {A} (m : Py A) : Prop :=
  forall w a w', m w = inr (a, w') -> w' = w.

Definition store_safe {A} (m : Py A) : Prop :=
  forall w a w', m w = inr (a, w') -> heap w' = heap w.

(** An engine with a one-frame gesture and an empty one. *)
Definition engine_with_still : ISLAvatar :=
  mkAvatar sk0 [("STILL", [mkFrame 0.0 sk0]); ("EMPTY", [])] [] 1.0.

(** Text made of white space only. *)
Definition blank (text : string) : bool :=
  forallb is_space (list_ascii_of_string text).

(** A dictionary of addresses moved up by [n]. *)
Definition shift (n : nat) (d : dict ref) : dict ref :=
  map (fun entry => (fst entry, (n + snd entry)%nat)) d.

(** Text whose characters are all ASCII: for such text the bytes of the
    string are Python's characters, and [upper], [split] and [letters]
    are [str.upper], [str.split] and the iteration over a [str]. *)
Definition ascii_text (text : string) : bool :=
  forallb (fun c => (nat_of_ascii c <? 128)%nat) (list_ascii_of_string text).

(** The fallback of the compositor in the words of its description: go
    through the characters; a character with a catalog entry appends the
    entry's frames, each timestamp raised by the clock, and advances the
    clock by the entry's final timestamp plus 0.2; any other character
    changes nothing. *)
Fixpoint spelled (db : dict (list GestureFrame)) (chars : list string)
    (st : list GestureFrame * R) : list GestureFrame * R :=
  match chars with
  | [] => st
  | c :: rest =>
      match dict_get c db with
      | Some g =>
          match last g with
          | Some lf =>
              spelled db rest
                (fst st ++ map (fun f => mkFrame (timestamp f + snd st) (joints f)) g,
                 snd st + (timestamp lf + 0.2))
          | None => st
          end
      | None => spelled db rest st
      end
  end.

(** ** The rescaling path in IEEE double precision

    The real-number model above does not round.  Here the timestamps of
    the catalog and the arithmetic of [animate_gesture] are taken in
    binary64, as Python computes them; frames hold the skeleton's
    name-to-address map as before. *)
Module Float64.
Import PrimFloat.
#[local] Open Scope float_scope.
#[local] Set Warnings "-inexact-float".

(** [class GestureFrame] *)
Record GestureFrame := mkFrame {
  timestamp : float;
  joints : dict ref
}.

(** The float of a loop index, as in [i / 9.0]. *)
Definition of_int (i : nat) : float := of_uint63 (Uint63.of_Z (Z.of_nat i)).

(** The frames a builder returns: [GestureFrame(0.0, ...)], then for
    [i in range(n)], with [t = i / d], [GestureFrame(t * total, ...)]. *)
Definition samples (n : nat) (d total : float) : list GestureFrame :=
  mkFrame 0.0 sk0 :: map (fun i => mkFrame (of_int i / d * total) sk0) (seq 0 n).

Definition catalog : dict (list GestureFrame) :=
  [ ("HELLO", samples 10 9.0 2.0);
    ("THANK_YOU", samples 15 14.0 1.5);
    ("YES", samples 8 7.0 1.0);
    ("NO", samples 12 11.0 1.2);
    ("GOOD", samples 10 9.0 1.0);
    ("BAD", samples 10 9.0 1.0);
    ("WATER", samples 15 14.0 2.0);
    ("FOOD", samples 12 11.0 1.5);
    ("HOME", samples 20 19.0 2.5);
    ("SCHOOL", samples 15 14.0 2.0) ].

(** [x / y] on floats *)
Definition float_div (x y : float) : Py float :=
  if eqb y 0 then raise ZeroDivisionError else ret (x / y).

(** Truth value of an optional float: [None] and zero are false. *)
Definition float_truthy (d : option float) : option float :=
  match d with
  | Some x => if eqb x 0 then None else Some x
  | None => None
  end.

Definition animate_gesture (gesture_database : dict (list GestureFrame))
    (gesture_name : string) (duration : option float) : Py (list GestureFrame) :=
  if negb (dict_mem gesture_name gesture_database) then
    warning (not_found_msg gesture_name) ;;;
    ret []
  else
    gesture_frames <- dict_getitem gesture_database gesture_name ;;
    match float_truthy duration with
    | Some duration =>
        (* Scale animation to desired duration *)
        last_frame <- list_last gesture_frames ;;
        let original_duration := timestamp last_frame in
        scale_factor <- float_div duration original_duration ;;
        for_each gesture_frames [] (fun frame scaled_frames =>
          let scaled_frame :=
            mkFrame (timestamp frame * scale_factor) (joints frame) in
          ret (scaled_frames ++ [scaled_frame]))
    | None => ret gesture_frames
    end.

End Float64.

(** * Proofs *)

#[local] Arguments INR : simpl never.

(** ** Symbolic execution *)

(** Evaluate the program text and leave real arithmetic alone. *)
Ltac run :=
  cbv -[Rplus Rmult Rdiv Rminus Ropp Rinv INR IZR Q2R sin PI Rabs Rlt_dec Req_dec_T].

Lemma INR_lit (n : nat) : INR n = IZR (Z.of_nat n).
Proof. apply INR_IZR_INZ. Qed.

(** Turn [INR] of a numeral into a literal and call [lra]. *)
Ltac lra_lit := rewrite ?INR_lit in *; cbv [Z.of_nat Pos.of_succ_nat Pos.succ] in *; lra.

(** Settle one test [t < 0.5] of the HOME builder. *)
Ltac settle_lt :=
  match goal with
  | |- context [Rlt_dec ?a ?b] =>
      let H := fresh "H" in
      destruct (Rlt_dec a b) as [H | H];
      [ try (exfalso; clear - H; lra_lit)
      | try (exfalso; apply H; clear; lra_lit) ]
  end.

Lemma create_skeleton_run : _create_skeleton empty_world = inr (sk0, rest_world).
Proof. run. reflexivity. Qed.

(** A loop that appends one frame per round and changes the store by [W]. *)
Lemma for_each_frames {A} (F : A -> GestureFrame) (W : A -> world -> world)
    (P : world -> Prop) (body : A -> list GestureFrame -> Py (list GestureFrame)) :
  (forall x frames w, P w -> body x frames w = inr (frames ++ [F x], W x w)) ->
  (forall x w, P w -> P (W x w)) ->
  forall xs frames w, P w ->
    for_each xs frames body w
    = inr (frames ++ map F xs, fold_left (fun w x => W x w) xs w).
Proof.
  intros Hbody HP xs. induction xs as [|x xs IH]; intros frames w Hw.
  - simpl. unfold ret. now rewrite app_nil_r.
  - simpl. unfold bind. rewrite Hbody by assumption.
    rewrite IH by (apply HP; assumption).
    now rewrite <- app_assoc.
Qed.

(** A store of twelve objects, by name. *)
Ltac twelve h H :=
  do 12 (destruct h as [|? h]; [discriminate H|]);
  destruct h; [clear H|discriminate H].

Section BuilderRuns.

Variables j0 j1 j2 j3 j4 j5 j6 j7 j8 j9 j10 j11 : Joint.
Variable lg : list string.

Let w0 : world := mkWorld [j0; j1; j2; j3; j4; j5; j6; j7; j8; j9; j10; j11] lg.

Lemma home_run :
  _create_home_gesture sk0 w0
  = inr (samples 20 19.0 2.5,
         mkWorld [j0; j1; j2; j3; j4; with_position (-0.3, 1.4, 0.1) j5;
                  j6; j7; j8; with_position (0.3, 1.4, 0.1) j9; j10; j11] lg).
Proof.
  unfold _create_home_gesture, for_range.
  rewrite (for_each_frames
    (fun i => mkFrame (INR i / 19.0 * 2.5) sk0)
    (fun i w =>
       let t := INR i / 19.0 in
       let y := if Rlt_dec t 0.5 then 1.2 + t * 0.4 else 1.4 in
       mkWorld (alter (with_position (0.3, y, 0.1)) 9%nat
                  (alter (with_position (-0.3, y, 0.1)) 5%nat (heap w))) (log w))
    (fun w => length (heap w) = 12%nat)).
  - run. settle_lt. reflexivity.
  - intros i frames [h l] H. simpl in H. twelve h H.
    destruct (Rlt_dec (INR i / 19.0) 0.5) eqn:E; run; rewrite ?E; reflexivity.
  - intros i [h l] H. simpl in *. now rewrite !length_alter.
  - reflexivity.
Qed.

Lemma hello_run :
  _create_hello_gesture sk0 w0
  = inr (samples 10 9.0 2.0,
         mkWorld [j0; j1; j2; j3; j4;
                  j5; j6; j7; with_rotation (0, 0, sin (INR 9 / 9.0 * PI * 2) * 0.3) j8;
                  with_rotation (0, 0, sin (INR 9 / 9.0 * PI * 2) * 0.3) j9; j10; j11] lg).
Proof. run. reflexivity. Qed.

Lemma thank_you_run :
  _create_thank_you_gesture sk0 w0
  = inr (samples 15 14.0 1.5,
         mkWorld [j0; j1; j2; j3; j4;
                  with_position (-0.2, 1.2 + INR 14 / 14.0 * 0.3, 0.1) j5; j6; j7; j8;
                  with_position (0.2, 1.2 + INR 14 / 14.0 * 0.3, 0.1) j9; j10; j11] lg).
Proof. run. reflexivity. Qed.

Lemma yes_run :
  _create_yes_gesture sk0 w0
  = inr (samples 8 7.0 1.0,
         mkWorld [with_rotation (sin (INR 7 / 7.0 * PI) * 0.2, 0, 0) j0; with_rotation (sin (INR 7 / 7.0 * PI) * 0.2, 0, 0) j1; j2; j3; j4;
                  j5; j6; j7; j8;
                  j9; j10; j11] lg).
Proof. run. reflexivity. Qed.

Lemma no_run :
  _create_no_gesture sk0 w0
  = inr (samples 12 11.0 1.2,
         mkWorld [with_rotation (0, 0, sin (INR 11 / 11.0 * PI * 4) * 0.3) j0; with_rotation (0, 0, sin (INR 11 / 11.0 * PI * 4) * 0.3) j1; j2; j3; j4;
                  j5; j6; j7; j8;
                  j9; j10; j11] lg).
Proof. run. reflexivity. Qed.

Lemma good_run :
  _create_good_gesture sk0 w0
  = inr (samples 10 9.0 1.0,
         mkWorld [j0; j1; j2; j3; j4;
                  j5; j6; j7; with_rotation (0, 0, 0.3) j8;
                  with_rotation (0, 0, 1.57) j9; j10; j11] lg).
Proof. run. reflexivity. Qed.

Lemma bad_run :
  _create_bad_gesture sk0 w0
  = inr (samples 10 9.0 1.0,
         mkWorld [j0; j1; j2; j3; j4;
                  j5; j6; j7; with_rotation (0, 0, -0.3) j8;
                  with_rotation (0, 0, -1.57) j9; j10; j11] lg).
Proof. run. reflexivity. Qed.

Lemma water_run :
  _create_water_gesture sk0 w0
  = inr (samples 15 14.0 2.0,
         mkWorld [j0; j1; j2; j3; j4;
                  j5; j6; with_rotation (0, 0, INR 14 / 14.0 * 0.5) j7; j8;
                  with_position (0.1, 1.6 - INR 14 / 14.0 * 0.4, 0.2) j9; j10; j11] lg).
Proof. run. reflexivity. Qed.

Lemma food_run :
  _create_food_gesture sk0 w0
  = inr (samples 12 11.0 1.5,
         mkWorld [j0; j1; j2; j3; j4;
                  j5; j6; j7; j8;
                  with_position (0.1, 1.6 - Rabs (INR 11 / 11.0 - 0.5) * 0.8, 0.2) j9; j10; j11] lg).
Proof. run. reflexivity. Qed.

Lemma school_run :
  _create_school_gesture sk0 w0
  = inr (samples 15 14.0 2.0,
         mkWorld [j0; j1; j2; j3; j4;
                  j5; j6; j7; with_rotation (0, 0, INR 14 / 14.0 * 0.2) j8;
                  with_position (0.2 + INR 14 / 14.0 * 0.3, 1.0, 0.1) j9; j10; j11] lg).
Proof. run. reflexivity. Qed.

End BuilderRuns.

Lemma load_gesture_database_run :
  _load_gesture_database sk0 rest_world = inr (catalog, engine_world).
Proof.
  unfold _load_gesture_database, bind, rest_world, rest_heap.
  rewrite hello_run, thank_you_run, yes_run, no_run, good_run, bad_run,
    water_run, food_run, home_run, school_run.
  reflexivity.
Qed.

(** Start-up succeeds and yields [engine] in the store [engine_world]. *)
Lemma init_run : ISLAvatar_init empty_world = inr (engine, engine_world).
Proof.
  unfold ISLAvatar_init, bind.
  rewrite create_skeleton_run, load_gesture_database_run. reflexivity.
Qed.


Lemma started_inv av w : started av w -> av = engine /\ w = engine_world.
Proof. unfold started. rewrite init_run. intros H. now inversion H. Qed.

(** ** The skeleton (C2) *)

Lemma dict_get_In {V} (k : string) (d : dict V) (v : V) :
  dict_get k d = Some v -> In (k, v) d.
Proof.
  induction d as [|[k' v'] d IH]; simpl; [discriminate|].
  destruct (String.eqb_spec k k') as [->|_].
  - intros [= ->]. now left.
  - intros H. right. now apply IH.
Qed.

Lemma lookup_joint_In w d n j :
  lookup_joint w d n = Some j -> exists a, In (n, a) d /\ heap w !! a = Some j.
Proof.
  unfold lookup_joint. destruct (dict_get n d) as [a|] eqn:E; [|discriminate].
  intros H. exists a. split; [now apply dict_get_In|assumption].
Qed.

(** Case analysis over the twelve joints of the rest store. *)
Ltac each_joint H :=
  let a := fresh "a" in
  let Hin := fresh "Hin" in
  let Hj := fresh "Hj" in
  apply lookup_joint_In in H; destruct H as (a & Hin & Hj);
  simpl in Hin;
  repeat (destruct Hin as [Hin|Hin]; [injection Hin as <- <-; simpl in Hj; injection Hj as <-|]);
  [..|contradiction].

(** C2, as stated, fails: the skeleton has twelve joints, ["spine"] (like
    ["neck"], ["head"] and the shoulders) has no parent field, and the
    loop that sets the parent relationships appends names the children
    lists already hold. *)
Lemma skeleton_is_not_tree_of_11 :
  exists sk w, _create_skeleton empty_world = inr (sk, w) /\
    length sk = 12%nat /\
    (exists j, lookup_joint w sk "spine" = Some j /\ parent j = None) /\
    (exists j, lookup_joint w sk "left_shoulder" = Some j /\
               children j = ["left_elbow"; "left_elbow"]) /\
    ~ tree_of 11 w sk.
Proof.
  exists sk0, rest_world. split; [apply create_skeleton_run|].
  split; [reflexivity|]. split; [|split].
  - eexists. split; reflexivity.
  - eexists. split; reflexivity.
  - intros (Hlen & _). discriminate Hlen.
Qed.

(** C2, amended: the skeleton has twelve joints with distinct names;
    ["hip"] has no parent and is nobody's child; a joint that has a parent
    has one that exists and lists it among its children; every name in a
    children list names a joint; the walk from ["hip"] along children ends
    (no cycle) and meets all twelve joints. *)
Theorem skeleton_shape :
  exists sk w, _create_skeleton empty_world = inr (sk, w) /\
    length sk = 12%nat /\
    NoDup (dict_keys sk) /\
    (exists hip, lookup_joint w sk "hip" = Some hip /\ parent hip = None) /\
    (forall n j p, lookup_joint w sk n = Some j -> parent j = Some p ->
       exists pj, lookup_joint w sk p = Some pj /\ In n (children pj)) /\
    (forall n j c, lookup_joint w sk n = Some j -> In c (children j) ->
       c <> "hip" /\ exists cj, lookup_joint w sk c = Some cj) /\
    (exists l, traverse 12 w sk "hip" = Some l /\
       forall n, In n l <-> In n (dict_keys sk)).
Proof.
  exists sk0, rest_world. split; [apply create_skeleton_run|].
  split; [reflexivity|]. split; [|split; [|split; [|split]]].
  - unfold dict_keys. simpl. compute_done.
  - eexists. split; reflexivity.
  - intros n j p H Hp. each_joint H; simpl in Hp; try discriminate;
      injection Hp as <-; eexists; (split; [reflexivity|simpl; tauto]).
  - intros n j c H Hc. each_joint H; simpl in Hc; intuition (subst; try discriminate);
      eexists; reflexivity.
  - eexists. split; [run; reflexivity|].
    intros n. unfold dict_keys. simpl. tauto.
Qed.

(** ** The catalog (C9) *)

Lemma samples_last n d total :
  last (samples (S n) d total) = Some (mkFrame (INR n / d * total) sk0).
Proof.
  unfold samples. rewrite seq_S, map_app. simpl.
  rewrite app_comm_cons. apply last_snoc.
Qed.

Lemma samples_joints n d total f : In f (samples n d total) -> joints f = sk0.
Proof.
  unfold samples. intros [<-|H]; [reflexivity|].
  apply in_map_iff in H. destruct H as (i & <- & _). reflexivity.
Qed.

Lemma ramp_le d total i j :
  0 < d -> 0 <= total -> (i <= j)%nat -> INR i / d * total <= INR j / d * total.
Proof.
  intros Hd Ht Hij. apply le_INR in Hij.
  apply Rmult_le_compat_r; [assumption|].
  apply Rmult_le_compat_r; [|assumption].
  left. now apply Rinv_0_lt_compat.
Qed.

Lemma ramp_nonneg d total i : 0 < d -> 0 <= total -> 0 <= INR i / d * total.
Proof.
  intros Hd Ht. apply Rmult_le_pos; [|assumption].
  apply Rmult_le_pos; [apply pos_INR|]. left. now apply Rinv_0_lt_compat.
Qed.

Lemma ramp_sorted d total n : 0 < d -> 0 <= total ->
  forall s, StronglySorted Rle (map (fun i => INR i / d * total) (seq s n)).
Proof.
  intros Hd Ht. induction n as [|n IH]; intros s; simpl; constructor.
  - apply IH.
  - apply List.Forall_forall. intros x Hx. apply in_map_iff in Hx.
    destruct Hx as (j & <- & Hj). apply in_seq in Hj.
    apply ramp_le; [assumption..|lia].
Qed.

Lemma samples_timestamps n d total :
  timestamps (samples n d total)
  = 0.0 :: map (fun i => INR i / d * total) (seq 0 n).
Proof. unfold timestamps, samples. simpl. now rewrite map_map. Qed.

Lemma samples_nonneg n d total f :
  0 < d -> 0 <= total -> In f (samples n d total) -> 0 <= timestamp f.
Proof.
  intros Hd Ht [<-|H]; [simpl; lra|].
  apply in_map_iff in H. destruct H as (i & <- & _). simpl. now apply ramp_nonneg.
Qed.

Lemma samples_sorted n d total :
  0 < d -> 0 <= total -> nondecreasing (samples n d total).
Proof.
  intros Hd Ht. unfold nondecreasing. rewrite samples_timestamps. constructor.
  - now apply ramp_sorted.
  - apply List.Forall_forall. intros x Hx. apply in_map_iff in Hx.
    destruct Hx as (i & <- & _).
    assert (0 <= INR i / d * total) by now apply ramp_nonneg. lra.
Qed.

(** Every catalog entry is a ramp of [n + 1] samples ending at its
    nominal duration. *)
Lemma catalog_entry name frames :
  dict_get name catalog = Some frames ->
  exists n d total,
    frames = samples (S n) d total /\ INR n = d /\ 0 < d /\ 0 < total.
Proof.
  unfold catalog. simpl.
  repeat (destruct (String.eqb name _);
    [intros [= <-]; do 3 eexists; split; [reflexivity|];
     repeat split; clear; lra_lit|]).
  discriminate.
Qed.

Lemma catalog_last name frames :
  dict_get name catalog = Some frames ->
  exists lf, last frames = Some lf /\ 0 < timestamp lf.
Proof.
  intros H. destruct (catalog_entry _ _ H) as (n & d & total & -> & Hn & Hd & Ht).
  eexists. split; [apply samples_last|]. simpl. rewrite Hn.
  unfold Rdiv. rewrite Rinv_r by lra. lra.
Qed.

(** C9: every catalog gesture is non-empty, starts at timestamp 0 and has
    non-decreasing timestamps; the catalog holds the ten names. *)
Theorem catalog_timestamps av w name frames :
  started av w ->
  dict_get name (gesture_database av) = Some frames ->
  get_available_gestures av
  = ["HELLO"; "THANK_YOU"; "YES"; "NO"; "GOOD"; "BAD"; "WATER"; "FOOD";
     "HOME"; "SCHOOL"] /\
  frames <> [] /\
  (exists f, head frames = Some f /\ timestamp f = 0) /\
  nondecreasing frames.
Proof.
  intros Hs H. apply started_inv in Hs as [-> ->]. split; [reflexivity|].
  destruct (catalog_entry _ _ H) as (n & d & total & -> & Hn & Hd & Ht).
  split; [discriminate|]. split.
  - eexists. split; [reflexivity|]. simpl. lra.
  - apply samples_sorted; lra.
Qed.

Lemma catalog_timestamps_witness :
  started engine engine_world /\
  dict_get "HOME" (gesture_database engine) = Some (samples 20 19.0 2.5) /\
  nondecreasing (samples 20 19.0 2.5).
Proof.
  split; [apply init_run|]. split; [reflexivity|].
  apply (catalog_timestamps engine engine_world "HOME" _ init_run eq_refl).
Defined.

(** ** The player (C3, C4, C5) *)

Lemma for_each_append {A B} (g : A -> B) (xs : list A) (acc : list B) (w : world) :
  for_each xs acc (fun x acc => ret (acc ++ [g x])) w = inr (acc ++ map g xs, w).
Proof.
  revert acc. induction xs as [|x xs IH]; intros acc; simpl.
  - unfold ret. now rewrite app_nil_r.
  - unfold bind, ret at 1. rewrite IH. now rewrite <- app_assoc.
Qed.

Lemma dict_mem_true {V} (k : string) (d : dict V) (v : V) :
  dict_get k d = Some v -> dict_mem k d = true.
Proof. unfold dict_mem. now intros ->. Qed.

Lemma dict_mem_false {V} (k : string) (d : dict V) :
  dict_mem k d = false <-> dict_get k d = None.
Proof. unfold dict_mem. destruct (dict_get k d); split; congruence. Qed.

(** A name the catalog lacks: a warning, an empty list, no exception. *)
Lemma animate_gesture_missing self gesture_name duration w :
  dict_mem gesture_name (gesture_database self) = false ->
  animate_gesture self gesture_name duration w
  = inr ([], mkWorld (heap w) (log w ++ [not_found_msg gesture_name])).
Proof. intros H. unfold animate_gesture. rewrite H. reflexivity. Qed.

(** No duration, or a duration Python takes for false. *)
Lemma animate_gesture_plain self gesture_name duration frames w :
  dict_get gesture_name (gesture_database self) = Some frames ->
  float_truthy duration = None ->
  animate_gesture self gesture_name duration w = inr (frames, w).
Proof.
  intros H Hd. unfold animate_gesture.
  rewrite (dict_mem_true _ _ _ H). simpl.
  unfold dict_getitem, bind. rewrite H, Hd. reflexivity.
Qed.

(** A duration Python takes for true. *)
Lemma animate_gesture_scaled self gesture_name D frames lf w :
  dict_get gesture_name (gesture_database self) = Some frames ->
  last frames = Some lf ->
  D <> 0 -> timestamp lf <> 0 ->
  animate_gesture self gesture_name (Some D) w
  = inr (map (scale_frame (D / timestamp lf)) frames, w).
Proof.
  intros H Hl HD Hlf. unfold animate_gesture.
  rewrite (dict_mem_true _ _ _ H). simpl.
  unfold dict_getitem, bind at 1. rewrite H. unfold ret at 1.
  destruct (Req_dec_T D 0) as [|_]; [contradiction|].
  unfold list_last, bind at 1. rewrite Hl. unfold ret at 1.
  unfold float_div, bind.
  destruct (Req_dec_T (timestamp lf) 0) as [|_]; [contradiction|].
  unfold ret at 1. apply (for_each_append (scale_frame (D / timestamp lf))).
Qed.

Lemma last_map_scale k frames lf :
  last frames = Some lf ->
  last (map (scale_frame k) frames) = Some (scale_frame k lf).
Proof. intros H. change (map ?f ?l) with (f <$> l). now rewrite fmap_last, H. Qed.

Lemma scaled_final_timestamp D lf :
  timestamp lf <> 0 -> timestamp (scale_frame (D / timestamp lf) lf) = D.
Proof. intros H. simpl. field. assumption. Qed.

(** The binary64 catalog has the names, the frame counts and the joint
    dictionaries of the catalog the builders return ([init_run]); only
    the timestamps are computed in another arithmetic. *)
Lemma float_catalog_shape :
  map (fun entry => (fst entry, map Float64.joints (snd entry))) Float64.catalog
  = map (fun entry => (fst entry, map joints (snd entry))) catalog.
Proof. reflexivity. Qed.

Section Rounding.
Import PrimFloat.
#[local] Set Warnings "-inexact-float".


End Rounding.



(** C5: a name absent from the catalog gives an empty sequence and no
    exception, with or without a duration; the only trace is one warning
    in the log. *)
Theorem play_unknown_gesture self name duration w :
  dict_mem name (gesture_database self) = false ->
  exists w',
    animate_gesture self name duration w = inr ([], w') /\
    heap w' = heap w /\
    log w' = log w ++ [not_found_msg name].
Proof.
  intros H. eexists. split; [now apply animate_gesture_missing|].
  split; reflexivity.
Qed.

Lemma play_unknown_gesture_witness :
  dict_mem "NONEXISTENT" (gesture_database engine) = false /\
  exists w',
    animate_gesture engine "NONEXISTENT" None engine_world = inr ([], w') /\
    heap w' = heap engine_world /\
    log w' = ["Gesture 'NONEXISTENT' not found in database"].
Proof.
  split; [reflexivity|].
  apply (play_unknown_gesture engine "NONEXISTENT" None engine_world). reflexivity.
Defined.

(** C4, as stated, fails: with duration [0] the call on ["HELLO"] returns
    the catalog frames, and with duration [-1] it returns frames whose
    timestamps are negated halves; neither call raises. *)
Lemma nonpositive_duration_not_rejected :
  started engine engine_world /\
  animate_gesture engine "HELLO" (Some 0) engine_world
  = inr (samples 10 9.0 2.0, engine_world) /\
  animate_gesture engine "HELLO" (Some (-1)) engine_world
  = inr (map (scale_frame (-1 / (INR 9 / 9.0 * 2.0))) (samples 10 9.0 2.0),
         engine_world) /\
  ~ (forall D, D <= 0 ->
       exists e, animate_gesture engine "HELLO" (Some D) engine_world = inl e).
Proof.
  assert (H0 : animate_gesture engine "HELLO" (Some 0) engine_world
               = inr (samples 10 9.0 2.0, engine_world)).
  { apply animate_gesture_plain; [reflexivity|].
    simpl. destruct (Req_dec_T 0 0); [reflexivity|contradiction]. }
  split; [apply init_run|]. split; [exact H0|]. split.
  - apply (animate_gesture_scaled engine "HELLO" (-1) _
             (mkFrame (INR 9 / 9.0 * 2.0) sk0)); [reflexivity|reflexivity|lra|].
    simpl. lra_lit.
  - intros Hrej. destruct (Hrej 0) as [e He]; [lra|].
    rewrite H0 in He. discriminate.
Qed.

(** C4, amended: for a catalog gesture, duration [0] counts as no
    duration and returns the catalog frames; a duration [D < 0] returns
    as many frames with every timestamp multiplied by the quotient of [D]
    and the final timestamp and the joints untouched, so that no
    timestamp is positive; no exception is raised and nothing is
    logged. *)
Theorem play_nonpositive_duration av w0 name frames D w :
  started av w0 ->
  dict_get name (gesture_database av) = Some frames ->
  D < 0 ->
  animate_gesture av name (Some 0) w = inr (frames, w) /\
  exists lf scaled,
    last frames = Some lf /\
    animate_gesture av name (Some D) w = inr (scaled, w) /\
    length scaled = length frames /\
    (forall i f, frames !! i = Some f ->
       scaled !! i = Some (mkFrame (timestamp f * (D / timestamp lf)) (joints f))) /\
    forall f, In f scaled -> timestamp f <= 0.
Proof.
  intros Hs H HD. apply started_inv in Hs as [-> ->]. split.
  - apply animate_gesture_plain; [assumption|].
    simpl. destruct (Req_dec_T 0 0); [reflexivity|contradiction].
  - destruct (catalog_last _ _ H) as (lf & Hl & Hpos).
    exists lf, (map (scale_frame (D / timestamp lf)) frames).
    split; [assumption|]. split; [|split; [|split]].
    + apply animate_gesture_scaled; [assumption..|lra|lra].
    + apply length_map.
    + intros i f Hi. change (map ?g ?l) with (g <$> l).
      rewrite list_lookup_fmap, Hi. reflexivity.
    + intros f' Hf'. apply in_map_iff in Hf' as (f & <- & Hf). simpl.
      destruct (catalog_entry _ _ H) as (n & d & total & -> & Hn & Hd & Ht).
      assert (0 <= timestamp f)
        by (apply (samples_nonneg (S n) d total); [lra|lra|assumption]).
      assert (D / timestamp lf < 0).
      { unfold Rdiv. apply Rmult_neg_pos; [assumption|now apply Rinv_0_lt_compat]. }
      nra.
Qed.

Lemma play_nonpositive_duration_witness :
  started engine engine_world /\
  dict_get "YES" (gesture_database engine) = Some (samples 8 7.0 1.0) /\
  -2 < 0 /\
  animate_gesture engine "YES" (Some 0) engine_world
  = inr (samples 8 7.0 1.0, engine_world).
Proof.
  split; [apply init_run|]. split; [reflexivity|]. split; [lra|].
  apply (play_nonpositive_duration engine engine_world "YES" _ (-2) engine_world
           init_run eq_refl). lra.
Defined.

(** ** The compositor (C6, C7) *)

Example split_upper_example :
  split (upper "  hello	Thank_you  yes ") = ["HELLO"; "THANK_YOU"; "YES"]
  /\ letters "ZZ" = ["Z"; "Z"].
Proof. split; reflexivity. Qed.

Lemma append_offset_run self token pause all clock g lf w :
  dict_get token (gesture_database self) = Some g ->
  last g = Some lf ->
  append_offset self token pause (all, clock) w
  = inr ((all ++ map (offset_frame clock) g, clock + (timestamp lf + pause)), w).
Proof.
  intros H Hl. unfold append_offset, bind at 1.
  rewrite (animate_gesture_plain _ _ None _ _ H eq_refl).
  unfold bind at 1. rewrite (for_each_append (offset_frame clock)).
  unfold list_last, bind. rewrite Hl. reflexivity.
Qed.

Lemma animate_word_known self word all clock g lf w :
  dict_get word (gesture_database self) = Some g ->
  last g = Some lf ->
  animate_word self word (all, clock) w
  = inr ((all ++ map (offset_frame clock) g, clock + (timestamp lf + 0.5)), w).
Proof.
  intros H Hl. unfold animate_word. rewrite (dict_mem_true _ _ _ H).
  now apply append_offset_run.
Qed.

Lemma spell_letter_known self letter all clock g lf w :
  dict_get letter (gesture_database self) = Some g ->
  last g = Some lf ->
  spell_letter self letter (all, clock) w
  = inr ((all ++ map (offset_frame clock) g, clock + (timestamp lf + 0.2)), w).
Proof.
  intros H Hl. unfold spell_letter. rewrite (dict_mem_true _ _ _ H).
  now apply append_offset_run.
Qed.

Lemma spell_letter_unknown self letter st w :
  dict_mem letter (gesture_database self) = false ->
  spell_letter self letter st w = inr (st, w).
Proof. intros H. unfold spell_letter. now rewrite H. Qed.

Lemma animate_word_unknown self word st w :
  dict_mem word (gesture_database self) = false ->
  animate_word self word st w = for_each (letters word) st (spell_letter self) w.
Proof. intros H. unfold animate_word. now rewrite H. Qed.

(** *** Order of the composed timeline *)

Lemma timestamps_app l1 l2 : timestamps (l1 ++ l2) = timestamps l1 ++ timestamps l2.
Proof. apply map_app. Qed.

Lemma in_timestamps t frames :
  t ∈ timestamps frames -> exists f, In f frames /\ timestamp f = t.
Proof.
  intros H. apply list_elem_of_In, in_map_iff in H.
  destruct H as (f & <- & Hf). now exists f.
Qed.

Lemma offset_nondecreasing clock g :
  nondecreasing g -> nondecreasing (map (offset_frame clock) g).
Proof.
  unfold nondecreasing, timestamps. rewrite map_map. simpl.
  intros H. rewrite <- (map_map timestamp (fun t => t + clock)).
  apply (StronglySorted_fmap (fun t => t + clock) Rle Rle); [|assumption].
  intros x y Hxy. lra.
Qed.

Lemma nondecreasing_last g lf f :
  nondecreasing g -> last g = Some lf -> In f g -> timestamp f <= timestamp lf.
Proof.
  intros Hs Hl Hf. apply last_Some in Hl as [g' ->].
  apply in_app_or in Hf as [Hf|[<-|[]]]; [|lra].
  unfold nondecreasing in Hs. rewrite timestamps_app in Hs.
  apply StronglySorted_app in Hs as (Hs & _ & _).
  apply Hs; apply list_elem_of_In, in_map_iff; eexists; split; eauto.
  now left.
Qed.

(** One gesture appended at the clock keeps the state tidy. *)
Lemma tidy_append all clock g lf pause :
  tidy (all, clock) ->
  nondecreasing g -> (forall f, In f g -> 0 <= timestamp f) ->
  last g = Some lf -> 0 <= pause ->
  tidy (all ++ map (offset_frame clock) g, clock + (timestamp lf + pause)).
Proof.
  intros [Hs Hb] Hg Hpos Hl Hp. simpl in *. split; simpl.
  - unfold nondecreasing. rewrite timestamps_app.
    apply StronglySorted_app. split; [|split].
    + intros t1 t2 H1 H2.
      apply in_timestamps in H1 as (f1 & H1 & <-).
      apply in_timestamps in H2 as (f2 & H2 & <-).
      apply in_map_iff in H2 as (f & <- & Hf). simpl.
      specialize (Hb _ H1). specialize (Hpos _ Hf). lra.
    + assumption.
    + now apply offset_nondecreasing.
  - intros f Hf. apply in_app_or in Hf as [Hf|Hf].
    + specialize (Hb _ Hf).
      assert (0 <= timestamp lf).
      { apply Hpos. apply last_Some in Hl as [g' ->]. apply in_or_app. right. now left. }
      lra.
    + apply in_map_iff in Hf as (f0 & <- & Hf0). simpl.
      pose proof (nondecreasing_last _ _ _ Hg Hl Hf0). lra.
Qed.

(** A loop whose rounds keep an invariant of the accumulator and leave
    the store alone. *)
Lemma for_each_invariant {A S} (P : S -> Prop) (body : A -> S -> Py S) (xs : list A) :
  (forall x s w, P s -> exists s', body x s w = inr (s', w) /\ P s') ->
  forall s w, P s -> exists s', for_each xs s body w = inr (s', w) /\ P s'.
Proof.
  intros Hbody. induction xs as [|x xs IH]; intros s w Hs; simpl.
  - exists s. now split.
  - unfold bind. destruct (Hbody x s w Hs) as (s1 & -> & Hs1). now apply IH.
Qed.

Lemma well_timed_last db name g :
  well_timed db -> dict_get name db = Some g -> exists lf, last g = Some lf.
Proof.
  intros Hdb H. destruct (Hdb _ _ H) as (Hne & _).
  apply last_is_Some in Hne. destruct Hne as [lf Hlf]. now exists lf.
Qed.

Lemma spell_letter_tidy self letter st w :
  well_timed (gesture_database self) -> tidy st ->
  exists st', spell_letter self letter st w = inr (st', w) /\ tidy st'.
Proof.
  intros Hdb Hst. destruct st as [all clock].
  destruct (dict_get letter (gesture_database self)) as [g|] eqn:E.
  - destruct (well_timed_last _ _ _ Hdb E) as [lf Hl].
    destruct (Hdb _ _ E) as (_ & Hg & Hpos).
    eexists. split; [eapply spell_letter_known; eassumption|].
    apply tidy_append; [assumption..|lra].
  - apply dict_mem_false in E. eexists. split; [now apply spell_letter_unknown|assumption].
Qed.

Lemma animate_word_tidy self word st w :
  well_timed (gesture_database self) -> tidy st ->
  exists st', animate_word self word st w = inr (st', w) /\ tidy st'.
Proof.
  intros Hdb Hst. destruct st as [all clock].
  destruct (dict_get word (gesture_database self)) as [g|] eqn:E.
  - destruct (well_timed_last _ _ _ Hdb E) as [lf Hl].
    destruct (Hdb _ _ E) as (_ & Hg & Hpos).
    eexists. split; [eapply animate_word_known; eassumption|].
    apply tidy_append; [assumption..|lra].
  - apply dict_mem_false in E. rewrite animate_word_unknown by assumption.
    apply (for_each_invariant tidy); [|assumption].
    intros. now apply spell_letter_tidy.
Qed.

(** Any text composes, without exception or log entry, into a timeline
    with non-decreasing timestamps. *)
Lemma animate_text_nondecreasing self text w :
  well_timed (gesture_database self) ->
  exists frames, animate_text self text w = inr (frames, w) /\ nondecreasing frames.
Proof.
  intros Hdb. unfold animate_text, bind.
  destruct (for_each_invariant tidy (animate_word self) (split (upper text))
              (fun x s w => animate_word_tidy self x s w Hdb) ([], 0.0) w)
    as ([frames clock] & -> & Hs & _).
  - split; [constructor|]. intros f [].
  - exists frames. now split.
Qed.

Lemma catalog_well_timed : well_timed catalog.
Proof.
  intros name g H.
  destruct (catalog_entry _ _ H) as (n & d & total & -> & Hn & Hd & Ht).
  split; [discriminate|]. split; [apply samples_sorted; lra|].
  intros f Hf. apply (samples_nonneg (S n) d total); [lra|lra|assumption].
Qed.

Lemma samples_le_total n d total f :
  0 < d -> 0 <= total -> In f (samples (S n) d total) ->
  timestamp f <= INR n / d * total.
Proof.
  intros Hd Ht Hf.
  apply (nondecreasing_last (samples (S n) d total) (mkFrame (INR n / d * total) sk0));
    [now apply samples_sorted|apply samples_last|assumption].
Qed.

(** The timeline of ["HELLO YES"]: the HELLO frames at clock 0, then the
    YES frames at the clock HELLO leaves. *)
Lemma hello_yes_run w :
  animate_text engine "HELLO YES" w
  = inr (map (offset_frame 0.0) (samples 10 9.0 2.0)
         ++ map (offset_frame (0.0 + (INR 9 / 9.0 * 2.0 + 0.5))) (samples 8 7.0 1.0),
         w).
Proof.
  unfold animate_text.
  change (split (upper "HELLO YES")) with ["HELLO"; "YES"].
  simpl for_each. unfold bind.
  rewrite (animate_word_known engine "HELLO" [] 0.0 (samples 10 9.0 2.0)
             (mkFrame (INR 9 / 9.0 * 2.0) sk0) w eq_refl eq_refl).
  rewrite (animate_word_known engine "YES" _ _ (samples 8 7.0 1.0)
             (mkFrame (INR 7 / 7.0 * 1.0) sk0) w eq_refl eq_refl).
  reflexivity.
Qed.

(** C6, as stated, fails in its last part: in ["HELLO YES"] the first YES
    frame carries timestamp 2.5, which is the last HELLO timestamp 2.0
    plus the pause 0.5 and does not exceed it. *)
Lemma hello_yes_first_frame_meets_pause :
  exists hello yes th ty,
    started engine engine_world /\
    animate_text engine "HELLO YES" engine_world = inr (hello ++ yes, engine_world) /\
    hello = map (offset_frame 0.0) (samples 10 9.0 2.0) /\
    yes = map (offset_frame (0.0 + (INR 9 / 9.0 * 2.0 + 0.5))) (samples 8 7.0 1.0) /\
    In th hello /\ timestamp th = 2.0 /\
    In ty yes /\ timestamp ty = 2.5 /\
    ~ (timestamp ty > timestamp th + 0.5).
Proof.
  exists (map (offset_frame 0.0) (samples 10 9.0 2.0)),
         (map (offset_frame (0.0 + (INR 9 / 9.0 * 2.0 + 0.5))) (samples 8 7.0 1.0)),
         (offset_frame 0.0 (mkFrame (INR 9 / 9.0 * 2.0) sk0)),
         (offset_frame (0.0 + (INR 9 / 9.0 * 2.0 + 0.5)) (mkFrame 0.0 sk0)).
  split; [apply init_run|]. split; [apply hello_yes_run|].
  split; [reflexivity|]. split; [reflexivity|].
  split; [simpl; tauto|]. split; [simpl; clear; lra_lit|].
  split; [simpl; tauto|]. split; [simpl; clear; lra_lit|].
  simpl. clear. lra_lit.
Qed.

(** C6, amended: every text composes into a timeline with non-decreasing
    timestamps; a word of the catalog appends its frames, shifted by the
    clock, after all earlier frames and none before the clock, and then
    advances the clock by its final timestamp plus 0.5; in ["HELLO YES"]
    every YES timestamp is at least every HELLO timestamp plus 0.5. *)
Theorem compose_ordering av w0 text word g lf all clock w :
  started av w0 ->
  dict_get word (gesture_database av) = Some g ->
  last g = Some lf ->
  tidy (all, clock) ->
  (exists frames,
     animate_text av text w = inr (frames, w) /\ nondecreasing frames) /\
  animate_word av word (all, clock) w
  = inr ((all ++ map (offset_frame clock) g, clock + (timestamp lf + 0.5)), w) /\
  tidy (all ++ map (offset_frame clock) g, clock + (timestamp lf + 0.5)) /\
  (forall f f', In f all -> In f' (map (offset_frame clock) g) ->
     timestamp f <= clock <= timestamp f') /\
  (forall f', In f' (map (offset_frame clock) g) ->
     timestamp f' + 0.5 <= clock + (timestamp lf + 0.5)) /\
  exists hello yes,
    animate_text av "HELLO YES" w = inr (hello ++ yes, w) /\
    length hello = 11%nat /\ length yes = 9%nat /\
    forall th ty, In th hello -> In ty yes ->
      timestamp ty >= timestamp th + 0.5.
Proof.
  intros Hs H Hl Ht. apply started_inv in Hs as [-> ->].
  destruct (catalog_well_timed _ _ H) as (_ & Hg & Hpos).
  split; [apply animate_text_nondecreasing, catalog_well_timed|].
  split; [now apply animate_word_known|].
  split; [apply tidy_append; [assumption..|lra]|].
  split; [|split].
  - intros f f' Hf Hf'. apply in_map_iff in Hf' as (f0 & <- & Hf0). simpl.
    destruct Ht as [_ Hb]. specialize (Hb _ Hf). specialize (Hpos _ Hf0).
    simpl in Hb. lra.
  - intros f' Hf'. apply in_map_iff in Hf' as (f0 & <- & Hf0). simpl.
    pose proof (nondecreasing_last _ _ _ Hg Hl Hf0). lra.
  - eexists _, _. split; [apply hello_yes_run|].
    split; [reflexivity|]. split; [reflexivity|].
    intros th ty Hh Hy.
    apply in_map_iff in Hh as (fh & <- & Hh).
    apply in_map_iff in Hy as (fy & <- & Hy). simpl.
    assert (timestamp fh <= INR 9 / 9.0 * 2.0)
      by (apply (samples_le_total 9 9.0 2.0); [lra|lra|assumption]).
    assert (0 <= timestamp fy)
      by (apply (samples_nonneg 8 7.0 1.0); [lra|lra|assumption]).
    lra.
Qed.

Lemma compose_ordering_witness :
  started engine engine_world /\
  dict_get "YES" (gesture_database engine) = Some (samples 8 7.0 1.0) /\
  last (samples 8 7.0 1.0) = Some (mkFrame (INR 7 / 7.0 * 1.0) sk0) /\
  tidy ([], 0) /\
  exists frames,
    animate_text engine "hello zebra yes" engine_world = inr (frames, engine_world) /\
    nondecreasing frames.
Proof.
  assert (Ht : tidy ([], 0)) by (split; [constructor|intros f []]).
  split; [apply init_run|]. split; [reflexivity|]. split; [reflexivity|].
  split; [exact Ht|].
  apply (compose_ordering engine engine_world "hello zebra yes" "YES" _ _ [] 0
           engine_world init_run eq_refl eq_refl Ht).
Defined.

Lemma spell_letters_run self chars st w :
  (forall letter g, In letter chars ->
     dict_get letter (gesture_database self) = Some g -> g <> []) ->
  for_each chars st (spell_letter self) w
  = inr (spelled (gesture_database self) chars st, w).
Proof.
  revert st. induction chars as [|c chars IH]; intros [all clock] Hne; [reflexivity|].
  simpl for_each. unfold bind. simpl spelled.
  destruct (dict_get c (gesture_database self)) as [g|] eqn:E.
  - destruct (last g) as [lf|] eqn:Hl.
    + rewrite (spell_letter_known self c all clock g lf w E Hl).
      rewrite IH by (intros l g' Hin; apply Hne; now right). reflexivity.
    + apply last_None in Hl. exfalso. apply (Hne c g); [now left|assumption..].
  - rewrite spell_letter_unknown by now apply dict_mem_false.
    apply IH. intros l g' Hin. apply Hne. now right.
Qed.

(** C7: a token the catalog lacks is spelled character by character: a
    character of the catalog appends its frames, every timestamp raised
    by the clock, and then advances the clock by its final timestamp plus
    0.2; any other character changes neither frames nor clock; with a
    gesture for Z and none for ZZ, ["ZZ"] gives the Z frames twice, the
    second copy shifted by the final timestamp plus 0.2. *)
Theorem spell_unknown_word self word st w :
  dict_mem word (gesture_database self) = false ->
  ascii_text word = true ->
  (forall letter g, In letter (letters word) ->
     dict_get letter (gesture_database self) = Some g -> g <> []) ->
  animate_word self word st w
  = inr (spelled (gesture_database self) (letters word) st, w) /\
  (forall letter g lf all clock,
     dict_get letter (gesture_database self) = Some g ->
     last g = Some lf ->
     spell_letter self letter (all, clock) w
     = inr ((all ++ map (fun f => mkFrame (timestamp f + clock) (joints f)) g,
             clock + (timestamp lf + 0.2)), w)) /\
  (forall other st',
     dict_mem other (gesture_database self) = false ->
     spell_letter self other st' w = inr (st', w)) /\
  (forall gz lz,
     dict_get "Z" (gesture_database self) = Some gz ->
     last gz = Some lz ->
     dict_mem "ZZ" (gesture_database self) = false ->
     animate_text self "ZZ" w
     = inr (map (fun f => mkFrame (timestamp f + 0.0) (joints f)) gz
            ++ map (fun f => mkFrame (timestamp f + (0.0 + (timestamp lz + 0.2)))
                                     (joints f)) gz, w)).
Proof.
  intros Hw _ Hne. split; [|split; [|split]].
  - rewrite animate_word_unknown by assumption. now apply spell_letters_run.
  - intros letter g lf all clock Hg Hl.
    now rewrite (spell_letter_known self letter all clock g lf w Hg Hl).
  - intros other st' Ho. now apply spell_letter_unknown.
  - intros gz lz Hz Hlz Hzz.
    unfold animate_text. change (split (upper "ZZ")) with ["ZZ"].
    simpl for_each. unfold bind at 1. unfold bind at 1.
    rewrite animate_word_unknown by assumption.
    change (letters "ZZ") with ["Z"; "Z"]. simpl for_each. unfold bind.
    rewrite (spell_letter_known self "Z" [] 0.0 gz lz w Hz Hlz).
    rewrite (spell_letter_known self "Z" _ _ gz lz w Hz Hlz).
    reflexivity.
Qed.

Lemma spell_unknown_word_witness :
  (dict_mem "QUIZ?" (gesture_database engine_with_Z) = false /\
   ascii_text "QUIZ?" = true /\
   animate_word engine_with_Z "QUIZ?" ([], 0) engine_world
   = inr ((map (fun f => mkFrame (timestamp f + 0) (joints f)) (samples 10 9.0 2.0),
           0 + (INR 9 / 9.0 * 2.0 + 0.2)), engine_world)) /\
  (dict_mem "THANK" (gesture_database engine) = false /\
   ascii_text "THANK" = true /\
   animate_word engine "THANK" ([], 0) engine_world = inr (([], 0), engine_world)).
Proof.
  split.
  - split; [reflexivity|]. split; [reflexivity|].
    apply (spell_unknown_word engine_with_Z "QUIZ?" ([], 0) engine_world
             eq_refl eq_refl).
    intros letter g Hin Hg. simpl in Hin.
    repeat (destruct Hin as [<-|Hin]; [try discriminate Hg; injection Hg as <-; discriminate|]).
    contradiction.
  - split; [reflexivity|]. split; [reflexivity|].
    apply (spell_unknown_word engine "THANK" ([], 0) engine_world eq_refl eq_refl).
    intros letter g Hin Hg. simpl in Hin.
    repeat (destruct Hin as [<-|Hin]; [discriminate Hg|]).
    contradiction.
Defined.

(** ** The exporter (C8) *)

Lemma dict_set_fresh {V} (k : string) (v : V) (d : dict V) :
  ~ In k (dict_keys d) -> dict_set k v d = d ++ [(k, v)].
Proof.
  induction d as [|[k' v'] d IH]; simpl; [reflexivity|].
  intros H. destruct (String.eqb_spec k k') as [->|_]; [tauto|].
  rewrite IH; [reflexivity|tauto].
Qed.

Lemma export_joints_run w d :
  NoDup (dict_keys d) ->
  (forall n a, In (n, a) d -> is_Some (heap w !! a)) ->
  forall acc, (forall n, In n (dict_keys d) -> ~ In n (dict_keys acc)) ->
  exists out,
    for_each d acc export_joint w = inr (acc ++ out, w) /\
    Forall2 (joint_exported w) d out.
Proof.
  induction d as [|[n a] d IH]; intros Hnd Hok acc Hfresh.
  - exists []. simpl. unfold ret. rewrite app_nil_r. split; [reflexivity|constructor].
  - simpl in Hnd. apply NoDup_cons in Hnd as [Hn Hnd].
    destruct (Hok n a) as [j Hj]; [now left|].
    destruct (IH Hnd (fun n' a' H => Hok n' a' (or_intror H))
                (acc ++ [(n, joint_record j)])) as (out & Hrun & Hout).
    { intros n' Hn' Hin. unfold dict_keys in Hin. rewrite map_app in Hin.
      apply in_app_or in Hin as [Hin|[<-|[]]].
      - apply (Hfresh n'); [now right|assumption].
      - apply Hn. now apply list_elem_of_In. }
    exists ((n, joint_record j) :: out). split.
    + simpl. unfold bind at 1. unfold deref, bind at 1. rewrite Hj.
      unfold ret at 1. rewrite dict_set_fresh by (apply Hfresh; now left).
      rewrite Hrun. now rewrite <- app_assoc.
    + constructor; [|assumption]. split; [reflexivity|]. now exists j.
Qed.

Lemma export_frames_run w frames :
  frames_in_store w frames ->
  forall acc, exists out,
    for_each frames acc export_frame w = inr (acc ++ out, w) /\
    Forall2 (frame_exported w) frames out.
Proof.
  induction frames as [|f frames IH]; intros Hok acc.
  - exists []. simpl. unfold ret. rewrite app_nil_r. split; [reflexivity|constructor].
  - destruct (Hok f) as [Hnd Hrefs]; [now left|].
    destruct (export_joints_run w (joints f) Hnd Hrefs []) as (jd & Hjd & Hrel);
      [intros n _ []|].
    set (fd := PDict [("timestamp", PFloat (timestamp f)); ("joints", PDict jd)]).
    destruct (IH (fun f' H => Hok f' (or_intror H)) (acc ++ [fd])) as (out & Hrun & Hout).
    exists (fd :: out). split.
    + cbn [for_each]. unfold bind at 1. unfold export_frame at 1.
      unfold bind at 1. unfold dict in Hjd. rewrite Hjd, app_nil_l. unfold ret at 1. fold fd. rewrite Hrun.
      now rewrite <- app_assoc.
    + constructor; [|assumption]. exists jd. now split.
Qed.

(** C8: the structured export holds the duration (the last timestamp, or
    0 for no frames) and, in order, one record per frame with its
    timestamp and, for every joint name of the frame, the position and
    rotation of that joint; any other format logs a warning and returns
    the empty string without raising. *)
Theorem export_structured self frames format w :
  frames_in_store w frames ->
  format <> "json" ->
  (exists frames_data duration,
     export_animation self frames "json" w
     = inr (json_dumps (PDict [("frames", PList frames_data);
                               ("duration", PFloat duration)]) 2, w) /\
     duration = match last frames with Some f => timestamp f | None => 0 end /\
     Forall2 (frame_exported w) frames frames_data) /\
  export_animation self [] "json" w
  = inr (json_dumps (PDict [("frames", PList []); ("duration", PFloat 0.0)]) 2, w) /\
  export_animation self frames format w
  = inr (Str "", mkWorld (heap w) (log w ++ [unsupported_msg format])).
Proof.
  intros Hok Hfmt. split; [|split].
  - destruct (export_frames_run w frames Hok []) as (out & Hrun & Hout).
    exists out, (match last frames with Some f => timestamp f | None => 0.0 end).
    split; [|split; [|assumption]].
    + unfold export_animation.
      change (String.eqb "json" "json") with true. cbv iota. unfold bind.
      rewrite Hrun. reflexivity.
    + destruct (last frames); [reflexivity|lra].
  - reflexivity.
  - unfold export_animation.
    destruct (String.eqb_spec format "json") as [->|_]; [contradiction|].
    reflexivity.
Qed.

Lemma sk0_in_store w frames :
  length (heap w) = 12%nat ->
  (forall f, In f frames -> joints f = sk0) ->
  frames_in_store w frames.
Proof.
  intros Hlen Hsk f Hf. rewrite (Hsk f Hf). split; [compute_done|].
  intros n a Hin. apply lookup_lt_is_Some. rewrite Hlen.
  simpl in Hin. repeat (destruct Hin as [[= <- <-]|Hin]; [lia|]). contradiction.
Qed.

Lemma export_structured_witness :
  frames_in_store engine_world (samples 10 9.0 2.0) /\
  "bvh" <> "json" /\
  export_animation engine (samples 10 9.0 2.0) "bvh" engine_world
  = inr (Str "", mkWorld engine_heap ["Export format 'bvh' not supported yet"]).
Proof.
  assert (H : frames_in_store engine_world (samples 10 9.0 2.0))
    by (apply sk0_in_store; [reflexivity|apply samples_joints]).
  split; [exact H|]. split; [discriminate|].
  apply (export_structured engine (samples 10 9.0 2.0) "bvh" engine_world H).
  discriminate.
Defined.

(** ** Sharing of the joint objects (C1, C10) *)

Lemma catalog_frames_share name frames f :
  dict_get name catalog = Some frames -> In f frames -> joints f = sk0.
Proof.
  intros H Hf.
  destruct (catalog_entry _ _ H) as (n & d & total & -> & _).
  now apply samples_joints in Hf.
Qed.

Lemma engine_shares_twelve : shared_skeleton 12 engine engine_world.
Proof.
  split; [reflexivity|]. split; [compute_done|]. split; [reflexivity|].
  split.
  - intros name frames f H Hf. now apply (catalog_frames_share name frames).
  - intros name1 frames1 f1 name2 frames2 f2 joint H1 Hf1 H2 Hf2.
    rewrite (catalog_frames_share _ _ _ H1 Hf1), (catalog_frames_share _ _ _ H2 Hf2).
    split; reflexivity.
Qed.

(** C10, as stated, fails on the count: the skeleton, and with it every
    frame, names twelve joint objects, not eleven. *)
Lemma frames_share_twelve_not_eleven :
  started engine engine_world /\
  length (skeleton engine) = 12%nat /\
  (forall f, In f (samples 10 9.0 2.0) -> length (joints f) = 12%nat) /\
  ~ shared_skeleton 11 engine engine_world.
Proof.
  split; [apply init_run|]. split; [reflexivity|]. split.
  - intros f Hf. now rewrite (samples_joints _ _ _ _ Hf).
  - intros (Hlen & _). discriminate Hlen.
Qed.

(** C10, amended: all frames of the ten catalog gestures hold the
    skeleton's map to the same twelve joint objects; hence any two frames,
    of one gesture or of two, show for every joint the same position and
    rotation, those of the skeleton itself; and the store holds, field by
    field, the value of the last assignment made while the catalog was
    built ([engine_heap]). *)
Theorem frames_share_joint_objects av w :
  started av w ->
  shared_skeleton 12 av w /\ heap w = engine_heap.
Proof.
  intros Hs. apply started_inv in Hs as [-> ->].
  split; [apply engine_shares_twelve|reflexivity].
Qed.

Lemma frames_share_joint_objects_witness :
  started engine engine_world /\
  shared_skeleton 12 engine engine_world /\ heap engine_world = engine_heap.
Proof.
  split; [apply init_run|].
  apply (frames_share_joint_objects engine engine_world init_run).
Defined.

(** C1 on the code: once the engine has started, the canonical skeleton
    no longer holds the rest pose (["left_hand"] and ["right_hand"] have
    moved), and the first frame of HELLO, the one meant to show the rest
    pose, shows ["left_hand"], a joint HELLO never assigns, where the
    HOME builder left it.  The calls themselves leave the store alone. *)
Theorem canonical_skeleton_is_mutated :
  started engine engine_world /\
  _create_skeleton empty_world = inr (skeleton engine, rest_world) /\
  pose rest_world (skeleton engine) "left_hand" = Some ((-0.8, 0.7, 0), (0, 0, 0)) /\
  pose engine_world (skeleton engine) "left_hand" = Some ((-0.3, 1.4, 0.1), (0, 0, 0)) /\
  pose rest_world (skeleton engine) "right_hand" = Some ((0.8, 0.7, 0), (0, 0, 0)) /\
  pose engine_world (skeleton engine) "right_hand"
  = Some ((0.2 + INR 14 / 14.0 * 0.3, 1.0, 0.1), (0, 0, -1.57)) /\
  pose rest_world (skeleton engine) "left_hand"
  <> pose engine_world (skeleton engine) "left_hand" /\
  pose rest_world (skeleton engine) "right_hand"
  <> pose engine_world (skeleton engine) "right_hand" /\
  exists frames f0,
    animate_gesture engine "HELLO" None engine_world = inr (frames, engine_world) /\
    head frames = Some f0 /\ timestamp f0 = 0 /\
    pose engine_world (joints f0) "left_hand" = Some ((-0.3, 1.4, 0.1), (0, 0, 0)).
Proof.
  split; [apply init_run|]. split; [apply create_skeleton_run|].
  do 4 (split; [reflexivity|]).
  split; [|split].
  - intros [= H _ _]. clear - H. lra.
  - intros [= H _ _]. clear - H. lra_lit.
  - exists (samples 10 9.0 2.0), (mkFrame 0.0 sk0).
    split; [now apply animate_gesture_plain|].
    split; [reflexivity|]. split; [simpl; lra|reflexivity].
Qed.

(** * Further properties of the engine *)

(** ** What the operations leave alone *)

Lemma quiet_ret {A} (a : A) : quiet (ret a).
Proof. intros w a' w' [= _ <-]. reflexivity. Qed.

Lemma quiet_raise {A} (e : exn) : quiet (@raise A e).
Proof. intros w a w' H. discriminate H. Qed.

Lemma quiet_bind {A B} (m : Py A) (k : A -> Py B) :
  quiet m -> (forall a, quiet (k a)) -> quiet (bind m k).
Proof.
  intros Hm Hk w b w' H. unfold bind in H.
  destruct (m w) as [e|[a w1]] eqn:E; [discriminate|].
  apply Hm in E as ->. now apply Hk in H.
Qed.

Lemma quiet_for_each {A S} (body : A -> S -> Py S) (xs : list A) :
  (forall x s, quiet (body x s)) -> forall s, quiet (for_each xs s body).
Proof.
  intros Hb. induction xs as [|x xs IH]; intros s; simpl.
  - apply quiet_ret.
  - apply quiet_bind; [apply Hb|apply IH].
Qed.

Lemma quiet_dict_getitem {V} (d : dict V) (k : string) : quiet (dict_getitem d k).
Proof. unfold dict_getitem. destruct (dict_get k d); [apply quiet_ret|apply quiet_raise]. Qed.

Lemma quiet_list_last {A} (xs : list A) : quiet (list_last xs).
Proof. unfold list_last. destruct (last xs); [apply quiet_ret|apply quiet_raise]. Qed.

Lemma quiet_float_div x y : quiet (float_div x y).
Proof. unfold float_div. destruct (Req_dec_T y 0); [apply quiet_raise|apply quiet_ret]. Qed.

Lemma quiet_deref a : quiet (deref a).
Proof.
  intros w j w' H. unfold deref in H.
  destruct (heap w !! a); [now injection H as _ <-|discriminate].
Qed.

Lemma quiet_store_safe {A} (m : Py A) : quiet m -> store_safe m.
Proof. intros H w a w' E. now rewrite (H _ _ _ E). Qed.

(** A gesture of the catalog is played without a log entry. *)
Lemma quiet_animate_gesture_known self gesture_name duration :
  dict_mem gesture_name (gesture_database self) = true ->
  quiet (animate_gesture self gesture_name duration).
Proof.
  intros H. unfold animate_gesture. rewrite H. simpl.
  apply quiet_bind; [apply quiet_dict_getitem|]. intros frames.
  destruct (float_truthy duration).
  - apply quiet_bind; [apply quiet_list_last|]. intros lf.
    apply quiet_bind; [apply quiet_float_div|]. intros k.
    apply quiet_for_each. intros. apply quiet_ret.
  - apply quiet_ret.
Qed.

Lemma quiet_append_offset self token pause st :
  dict_mem token (gesture_database self) = true ->
  quiet (append_offset self token pause st).
Proof.
  intros H. destruct st as [all clock]. unfold append_offset.
  apply quiet_bind; [now apply quiet_animate_gesture_known|]. intros g.
  apply quiet_bind; [apply quiet_for_each; intros; apply quiet_ret|]. intros fs.
  apply quiet_bind; [apply quiet_list_last|]. intros lf. apply quiet_ret.
Qed.

Lemma quiet_spell_letter self letter st : quiet (spell_letter self letter st).
Proof.
  unfold spell_letter.
  destruct (dict_mem letter (gesture_database self)) eqn:E;
    [now apply quiet_append_offset|apply quiet_ret].
Qed.

Lemma quiet_export_joint entry acc : quiet (export_joint entry acc).
Proof.
  destruct entry as [n a]. unfold export_joint.
  apply quiet_bind; [apply quiet_deref|]. intros j. apply quiet_ret.
Qed.

Lemma quiet_export_frame frame acc : quiet (export_frame frame acc).
Proof.
  unfold export_frame. apply quiet_bind.
  - apply quiet_for_each. intros. apply quiet_export_joint.
  - intros jd. apply quiet_ret.
Qed.

(** X1: in any engine and for any text, a call of [animate_text] that
    returns has changed neither the joint store nor the log: words and
    letters the catalog lacks are passed over without a warning. *)
Theorem animate_text_is_silent self text w frames w' :
  animate_text self text w = inr (frames, w') -> w' = w.
Proof.
  revert w frames w'. change (quiet (animate_text self text)).
  unfold animate_text. apply quiet_bind.
  - apply quiet_for_each. intros word st. unfold animate_word.
    destruct (dict_mem word (gesture_database self)) eqn:E.
    + now apply quiet_append_offset.
    + apply quiet_for_each. intros. apply quiet_spell_letter.
  - intros st. apply quiet_ret.
Qed.

Lemma animate_text_is_silent_witness :
  animate_text engine "HELLO YES" engine_world
  = inr (map (offset_frame 0.0) (samples 10 9.0 2.0)
         ++ map (offset_frame (0.0 + (INR 9 / 9.0 * 2.0 + 0.5))) (samples 8 7.0 1.0),
         engine_world)
  /\ engine_world = engine_world.
Proof.
  split; [apply hello_yes_run|].
  apply (animate_text_is_silent engine "HELLO YES" engine_world
           (map (offset_frame 0.0) (samples 10 9.0 2.0)
            ++ map (offset_frame (0.0 + (INR 9 / 9.0 * 2.0 + 0.5))) (samples 8 7.0 1.0))
           engine_world).
  apply hello_yes_run.
Defined.

(** X2: in any engine, [animate_gesture] and [export_animation] never
    write to the joint store: when they return, every joint object is as
    it was, and the log has grown by at most the one warning (gesture not
    found, format not supported). *)
Theorem player_and_exporter_keep_store self gesture_name duration frames format w :
  (forall fs w', animate_gesture self gesture_name duration w = inr (fs, w') ->
     heap w' = heap w /\
     (log w' = log w \/ log w' = log w ++ [not_found_msg gesture_name])) /\
  (forall out w', export_animation self frames format w = inr (out, w') ->
     heap w' = heap w /\
     (log w' = log w \/ log w' = log w ++ [unsupported_msg format])).
Proof.
  split.
  - intros fs w' H.
    destruct (dict_mem gesture_name (gesture_database self)) eqn:E.
    + apply (quiet_animate_gesture_known _ _ duration E) in H as ->. now split; [|left].
    + rewrite animate_gesture_missing in H by assumption.
      injection H as _ <-. now split; [|right].
  - intros out w' H. unfold export_animation in H.
    destruct (String.eqb format "json").
    + assert (Hq : quiet (frames_data <- for_each frames [] export_frame ;;
                          ret (json_dumps (PDict [("frames", PList frames_data);
                            ("duration", PFloat (match last frames with
                                                 | Some f => timestamp f
                                                 | None => 0.0 end))]) 2))).
      { apply quiet_bind; [|intros; apply quiet_ret].
        apply quiet_for_each. intros. apply quiet_export_frame. }
      apply Hq in H as ->. now split; [|left].
    + injection H as _ <-. now split; [|right].
Qed.

(** ** Degenerate catalog entries *)

(** X3: rescaling divides by the final timestamp without a guard: for an
    entry whose last frame has timestamp 0 (as in any one-frame gesture)
    every non-zero duration raises [ZeroDivisionError], and for an entry
    without frames it raises [IndexError]; without a duration the entry
    is returned as it is. *)
Theorem rescale_degenerate_entry self name frames D w :
  dict_get name (gesture_database self) = Some frames ->
  D <> 0 ->
  (forall lf, last frames = Some lf -> timestamp lf = 0) ->
  animate_gesture self name None w = inr (frames, w) /\
  animate_gesture self name (Some D) w
  = inl (match last frames with
         | None => IndexError
         | Some _ => ZeroDivisionError
         end).
Proof.
  intros H HD Hzero. split; [now apply animate_gesture_plain|].
  unfold animate_gesture. rewrite (dict_mem_true _ _ _ H). simpl.
  unfold dict_getitem, bind at 1. rewrite H. unfold ret at 1.
  destruct (Req_dec_T D 0); [contradiction|].
  unfold list_last, bind at 1.
  destruct (last frames) as [lf|] eqn:Hl; [|reflexivity].
  unfold ret at 1. unfold float_div, bind.
  destruct (Req_dec_T (timestamp lf) 0) as [_|Hne]; [reflexivity|].
  exfalso. apply Hne. now apply Hzero.
Qed.

Lemma rescale_degenerate_entry_witness :
  dict_get "STILL" (gesture_database engine_with_still) = Some [mkFrame 0.0 sk0] /\
  2 <> 0 /\
  animate_gesture engine_with_still "STILL" (Some 2) engine_world = inl ZeroDivisionError /\
  animate_gesture engine_with_still "EMPTY" (Some 2) engine_world = inl IndexError.
Proof.
  assert (H2 : 2 <> 0) by lra.
  split; [reflexivity|]. split; [exact H2|]. split.
  - apply (rescale_degenerate_entry engine_with_still "STILL" _ 2 engine_world
             eq_refl H2).
    intros lf [= <-]. simpl. lra.
  - apply (rescale_degenerate_entry engine_with_still "EMPTY" _ 2 engine_world
             eq_refl H2).
    intros lf H. discriminate H.
Defined.

(** X4: in the compositor a word whose catalog entry has no frames raises
    [IndexError] at [gesture_frames[-1]], and so does the whole text when
    that word is its first token. *)
Theorem compose_empty_entry self word rest text st w :
  dict_get word (gesture_database self) = Some [] ->
  split (upper text) = word :: rest ->
  animate_word self word st w = inl IndexError /\
  animate_text self text w = inl IndexError.
Proof.
  intros H Hsplit.
  assert (Hw : forall st, animate_word self word st w = inl IndexError).
  { intros [all clock]. unfold animate_word. rewrite (dict_mem_true _ _ _ H).
    unfold append_offset, bind at 1.
    rewrite (animate_gesture_plain _ _ None _ _ H eq_refl). reflexivity. }
  split; [apply Hw|].
  unfold animate_text. rewrite Hsplit. simpl for_each. unfold bind.
  now rewrite Hw.
Qed.

Lemma compose_empty_entry_witness :
  dict_get "EMPTY" (gesture_database engine_with_still) = Some [] /\
  split (upper "empty still") = ["EMPTY"; "STILL"] /\
  animate_text engine_with_still "empty still" engine_world = inl IndexError.
Proof.
  split; [reflexivity|]. split; [reflexivity|].
  apply (compose_empty_entry engine_with_still "EMPTY" ["STILL"] "empty still"
           ([], 0) engine_world eq_refl eq_refl).
Defined.

(** ** The gesture list and the player *)

Lemma dict_get_None_keys {V} (k : string) (d : dict V) :
  dict_get k d = None <-> ~ In k (dict_keys d).
Proof.
  induction d as [|[k' v] d IH]; simpl; [tauto|].
  destruct (String.eqb_spec k k') as [->|Hne].
  - split; [discriminate|]. intros H. exfalso. apply H. now left.
  - rewrite IH. split; [|tauto]. intros H [E|E]; [congruence|tauto].
Qed.

(** X5: the names [get_available_gestures] returns are exactly the names
    [animate_gesture] plays: a listed name gives its catalog frames and
    no log entry; an unlisted one gives the empty list and the warning. *)
Theorem listed_gestures_are_playable self name duration w :
  (In name (get_available_gestures self) ->
     exists frames,
       dict_get name (gesture_database self) = Some frames /\
       animate_gesture self name None w = inr (frames, w)) /\
  (~ In name (get_available_gestures self) ->
     animate_gesture self name duration w
     = inr ([], mkWorld (heap w) (log w ++ [not_found_msg name]))).
Proof.
  unfold get_available_gestures. split.
  - intros Hin. destruct (dict_get name (gesture_database self)) as [frames|] eqn:E.
    + exists frames. split; [reflexivity|now apply animate_gesture_plain].
    + apply dict_get_None_keys in E. contradiction.
  - intros Hnot. apply animate_gesture_missing.
    apply dict_mem_false. now apply dict_get_None_keys.
Qed.

(** ** Text handling of the compositor *)

(** X6: in any engine whose catalog entries are non-empty, in time order
    and start no earlier than 0, every text composes without an
    exception, leaves store and log as they are, and yields a timeline
    with non-decreasing timestamps, letter gestures included. *)
Theorem compose_well_timed_catalog self text w :
  well_timed (gesture_database self) ->
  exists frames,
    animate_text self text w = inr (frames, w) /\ nondecreasing frames.
Proof.
  intros Hdb. unfold animate_text, bind.
  assert (Hstart : tidy ([], 0.0)) by (split; [constructor|intros f []]).
  destruct (for_each_invariant tidy (animate_word self) (split (upper text))
              (fun x s w => animate_word_tidy self x s w Hdb) ([], 0.0) w Hstart)
    as ([frames clock] & -> & Hs & _).
  exists frames. now split.
Qed.

Lemma engine_with_Z_well_timed : well_timed (gesture_database engine_with_Z).
Proof.
  intros name g H. simpl in H.
  assert (Hs : exists n d total,
    g = samples (S n) d total /\ INR n = d /\ 0 < d /\ 0 < total).
  { revert H.
    repeat (destruct (String.eqb name _);
      [intros [= <-]; do 3 eexists; split; [reflexivity|];
       repeat split; clear; lra_lit|]).
    discriminate. }
  destruct Hs as (n & d & total & -> & Hn & Hd & Ht).
  split; [discriminate|]. split; [apply samples_sorted; lra|].
  intros f Hf. apply (samples_nonneg (S n) d total); [lra|lra|assumption].
Qed.

Lemma compose_well_timed_catalog_witness :
  well_timed (gesture_database engine_with_Z) /\
  exists frames,
    animate_text engine_with_Z "yes zz!" engine_world = inr (frames, engine_world) /\
    nondecreasing frames.
Proof.
  split; [apply engine_with_Z_well_timed|].
  apply (compose_well_timed_catalog engine_with_Z "yes zz!" engine_world
           engine_with_Z_well_timed).
Defined.

Lemma catalog_has_no_letter c : dict_mem (String c EmptyString) catalog = false.
Proof.
  unfold dict_mem, catalog. simpl.
  repeat (destruct (Ascii.eqb c _); simpl); reflexivity.
Qed.

Lemma letters_are_single word letter :
  In letter (letters word) -> exists c, letter = String c EmptyString.
Proof.
  unfold letters. intros H. apply in_map_iff in H as (c & <- & _). now exists c.
Qed.

Lemma for_each_skip {A S} (body : A -> S -> Py S) (xs : list A) (s : S) (w : world) :
  (forall x, In x xs -> body x s w = inr (s, w)) ->
  for_each xs s body w = inr (s, w).
Proof.
  induction xs as [|x xs IH]; intros H; simpl; [reflexivity|].
  unfold bind. rewrite H by now left. apply IH. intros y Hy. apply H. now right.
Qed.

Lemma engine_drops_unknown_word word st w :
  dict_mem word catalog = false -> animate_word engine word st w = inr (st, w).
Proof.
  intros H. rewrite animate_word_unknown by exact H.
  apply for_each_skip. intros letter Hl.
  apply letters_are_single in Hl as [c ->].
  apply spell_letter_unknown. apply catalog_has_no_letter.
Qed.

(** X7: the start-up catalog has no one-letter gesture, so spelling never
    produces a frame: a word that is not a catalog name changes neither
    the timeline nor the clock, and an ASCII text none of whose tokens is
    a catalog name (such as "thank you", which is not THANK_YOU) composes
    into the empty timeline, with no warning. *)
Theorem unknown_words_are_dropped av w0 word text st w :
  started av w0 ->
  dict_mem word (gesture_database av) = false ->
  ascii_text text = true ->
  forallb (fun token => negb (dict_mem token (gesture_database av)))
          (split (upper text)) = true ->
  animate_word av word st w = inr (st, w) /\
  animate_text av text w = inr ([], w).
Proof.
  intros Hs Hw _ Ht. apply started_inv in Hs as [-> ->].
  split; [now apply engine_drops_unknown_word|].
  unfold animate_text, bind.
  rewrite for_each_skip; [reflexivity|].
  intros token Hin. apply engine_drops_unknown_word.
  rewrite forallb_forall in Ht. specialize (Ht _ Hin).
  now apply negb_true_iff in Ht.
Qed.

Lemma unknown_words_are_dropped_witness :
  started engine engine_world /\
  dict_mem "THANK" (gesture_database engine) = false /\
  ascii_text "thank you" = true /\
  animate_text engine "thank you" engine_world = inr ([], engine_world).
Proof.
  split; [apply init_run|]. split; [reflexivity|]. split; [reflexivity|].
  apply (unknown_words_are_dropped engine engine_world "THANK" "thank you"
           ([], 0) engine_world init_run eq_refl eq_refl eq_refl).
Defined.

Lemma upper_char_idempotent c : upper_char (upper_char c) = upper_char c.
Proof. destruct c as [[] [] [] [] [] [] [] []]; reflexivity. Qed.

Lemma upper_idempotent s : upper (upper s) = upper s.
Proof.
  induction s as [|c s IH]; simpl; [reflexivity|].
  now rewrite upper_char_idempotent, IH.
Qed.

(** X8: composition ignores letter case: a text and its upper-case form
    give the same result in any engine and any state. *)
Theorem compose_ignores_case self text w :
  animate_text self (upper text) w = animate_text self text w.
Proof. unfold animate_text. now rewrite upper_idempotent. Qed.

Lemma upper_char_space c : is_space c = true -> upper_char c = c.
Proof. destruct c as [[] [] [] [] [] [] [] []]; intros H; try reflexivity; discriminate H. Qed.

Lemma split_blank s :
  forallb is_space (list_ascii_of_string s) = true -> split (upper s) = [].
Proof.
  unfold split. induction s as [|c s IH]; simpl; [reflexivity|].
  intros H. apply andb_true_iff in H as [Hc Hs].
  rewrite (upper_char_space c Hc), Hc. now apply IH.
Qed.

(** X9: a text that is empty or made of white space only composes into
    the empty timeline, in any engine, without exception or log entry. *)
Theorem compose_blank_text self text w :
  blank text = true -> animate_text self text w = inr ([], w).
Proof.
  intros H. unfold animate_text. rewrite (split_blank text H). reflexivity.
Qed.

Lemma compose_blank_text_witness :
  blank "   " = true /\ blank "" = true /\
  animate_text engine "" engine_world = inr ([], engine_world).
Proof.
  split; [reflexivity|]. split; [reflexivity|].
  apply (compose_blank_text engine "" engine_world). reflexivity.
Defined.

(** ** Rescaling *)

Lemma scale_nondecreasing k frames :
  0 <= k -> nondecreasing frames -> nondecreasing (map (scale_frame k) frames).
Proof.
  intros Hk. unfold nondecreasing, timestamps. rewrite map_map. simpl.
  intros H. rewrite <- (map_map timestamp (fun t => t * k)).
  apply (StronglySorted_fmap (fun t => t * k) Rle Rle); [|assumption].
  intros x y Hxy. now apply Rmult_le_compat_r.
Qed.

(** X10: in any engine, rescaling a gesture whose timestamps are in order
    and start no earlier than 0 to a duration [D > 0], the final
    timestamp being positive, keeps the frames in order and places every
    timestamp between 0 and the timestamp of the last rescaled frame. *)
Theorem rescale_keeps_order self name frames lf D w :
  dict_get name (gesture_database self) = Some frames ->
  last frames = Some lf ->
  nondecreasing frames ->
  (forall f, In f frames -> 0 <= timestamp f) ->
  0 < timestamp lf ->
  D > 0 ->
  exists scaled final,
    animate_gesture self name (Some D) w = inr (scaled, w) /\
    last scaled = Some final /\
    nondecreasing scaled /\
    forall f, In f scaled -> 0 <= timestamp f <= timestamp final.
Proof.
  intros H Hl Hs Hpos HT HD.
  assert (Hk : 0 < D / timestamp lf)
    by (apply Rdiv_lt_0_compat; lra).
  exists (map (scale_frame (D / timestamp lf)) frames),
         (scale_frame (D / timestamp lf) lf).
  split; [apply animate_gesture_scaled; [assumption..|lra|lra]|].
  split; [now apply last_map_scale|].
  split; [apply scale_nondecreasing; [lra|assumption]|].
  intros f Hf. apply in_map_iff in Hf as (f0 & <- & Hf0). simpl.
  pose proof (Hpos _ Hf0) as H0.
  pose proof (nondecreasing_last _ _ _ Hs Hl Hf0) as H1.
  split; [apply Rmult_le_pos; lra|].
  apply Rmult_le_compat_r; lra.
Qed.

Lemma rescale_keeps_order_witness :
  last (samples 20 19.0 2.5) = Some (mkFrame (INR 19 / 19.0 * 2.5) sk0) /\
  0 < INR 19 / 19.0 * 2.5 /\
  exists scaled final,
    animate_gesture engine "HOME" (Some 10) engine_world = inr (scaled, engine_world) /\
    last scaled = Some final /\
    nondecreasing scaled /\
    forall f, In f scaled -> 0 <= timestamp f <= timestamp final.
Proof.
  assert (HT : 0 < INR 19 / 19.0 * 2.5) by (clear; lra_lit).
  assert (HD : 10 > 0) by lra.
  split; [reflexivity|]. split; [exact HT|].
  apply (rescale_keeps_order engine "HOME" (samples 20 19.0 2.5)
           (mkFrame (INR 19 / 19.0 * 2.5) sk0) 10 engine_world eq_refl eq_refl).
  - apply samples_sorted; lra.
  - intros f Hf. apply (samples_nonneg 20 19.0 2.5); [lra|lra|assumption].
  - exact HT.
  - exact HD.
Defined.

Lemma scale_frame_one T f : T <> 0 -> scale_frame (T / T) f = f.
Proof.
  intros HT. destruct f as [t d]. unfold scale_frame. simpl.
  f_equal. field. assumption.
Qed.

(** X11: in any engine, asking for a gesture at its own duration (the
    timestamp of its last frame, when that is not 0) returns the catalog
    frames themselves: the scale factor is 1. *)
Theorem rescale_to_own_duration self name frames lf w :
  dict_get name (gesture_database self) = Some frames ->
  last frames = Some lf ->
  timestamp lf <> 0 ->
  animate_gesture self name (Some (timestamp lf)) w = inr (frames, w).
Proof.
  intros H Hl HT.
  rewrite (animate_gesture_scaled _ _ _ _ _ _ H Hl HT HT).
  f_equal. f_equal. rewrite <- (map_id frames) at 2.
  apply map_ext. intros f. now apply scale_frame_one.
Qed.

Lemma rescale_to_own_duration_witness :
  dict_get "YES" (gesture_database engine) = Some (samples 8 7.0 1.0) /\
  last (samples 8 7.0 1.0) = Some (mkFrame (INR 7 / 7.0 * 1.0) sk0) /\
  INR 7 / 7.0 * 1.0 <> 0 /\
  animate_gesture engine "YES" (Some (INR 7 / 7.0 * 1.0)) engine_world
  = inr (samples 8 7.0 1.0, engine_world).
Proof.
  assert (HT : INR 7 / 7.0 * 1.0 <> 0) by (clear; lra_lit).
  split; [reflexivity|]. split; [reflexivity|]. split; [exact HT|].
  apply (rescale_to_own_duration engine "YES" (samples 8 7.0 1.0)
           (mkFrame (INR 7 / 7.0 * 1.0) sk0) engine_world eq_refl eq_refl HT).
Defined.

(** ** The builders on an arbitrary store *)

(** X12: on any store of twelve joints, whatever their fields, building
    the catalog succeeds and returns the same ten frame sequences; it
    leaves every joint's name, parent and children and the joints
    left_shoulder, left_elbow, left_wrist, right_shoulder, spine and hip
    as they are, logs nothing, and is idempotent: building the catalog
    again on the resulting store changes nothing. *)
Theorem builders_touch_poses_only h lg :
  length h = 12%nat ->
  exists h',
    _load_gesture_database sk0 (mkWorld h lg) = inr (catalog, mkWorld h' lg) /\
    length h' = 12%nat /\
    (forall a j j', h !! a = Some j -> h' !! a = Some j' ->
       name j' = name j /\ parent j' = parent j /\ children j' = children j) /\
    (forall a, In a [2; 3; 4; 6; 10; 11]%nat -> h' !! a = h !! a) /\
    _load_gesture_database sk0 (mkWorld h' lg) = inr (catalog, mkWorld h' lg).
Proof.
  intros H. twelve h H.
  eexists. split; [|split; [|split; [|split]]].
  - unfold _load_gesture_database, bind.
    rewrite hello_run, thank_you_run, yes_run, no_run, good_run, bad_run,
      water_run, food_run, home_run, school_run.
    reflexivity.
  - reflexivity.
  - intros a x x' Hx Hx'.
    do 12 (destruct a as [|a]; [injection Hx as <-; injection Hx' as <-; now repeat split|]).
    discriminate Hx.
  - intros a Ha. simpl in Ha.
    repeat (destruct Ha as [<-|Ha]; [reflexivity|]). contradiction.
  - unfold _load_gesture_database, bind.
    rewrite hello_run, thank_you_run, yes_run, no_run, good_run, bad_run,
      water_run, food_run, home_run, school_run.
    reflexivity.
Qed.

Lemma builders_touch_poses_only_witness :
  length rest_heap = 12%nat /\
  exists h',
    _load_gesture_database sk0 rest_world = inr (catalog, mkWorld h' []) /\
    length h' = 12%nat.
Proof.
  split; [reflexivity|].
  destruct (builders_touch_poses_only rest_heap [] eq_refl) as (h' & H1 & H2 & _).
  exists h'. now split.
Defined.

(** ** Exporting catalog gestures *)

Lemma export_shared_frames w d jd frames :
  for_each d [] export_joint w = inr (jd, w) ->
  (forall f, In f frames -> joints f = d) ->
  forall acc,
    for_each frames acc export_frame w
    = inr (acc ++ map (fun f => PDict [("timestamp", PFloat (timestamp f));
                                       ("joints", PDict jd)]) frames, w).
Proof.
  intros Hjd. induction frames as [|f frames IH]; intros Hd acc; simpl.
  - unfold ret. now rewrite app_nil_r.
  - unfold bind at 1. unfold export_frame at 1. unfold bind at 1.
    rewrite (Hd f) by now left. unfold dict in Hjd. rewrite Hjd.
    unfold ret at 1. rewrite IH by (intros f' Hf'; apply Hd; now right).
    now rewrite <- app_assoc.
Qed.

(** X13: exporting a catalog gesture of the started engine, whatever the
    twelve joints of the store hold at that moment, gives one record per
    frame in order, the final timestamp as duration, and in every record
    the same map of the twelve joint names to position and rotation: the
    exported animation differs from frame to frame in the timestamp
    only. *)
Theorem exported_gesture_is_static av w0 name frames w :
  started av w0 ->
  dict_get name (gesture_database av) = Some frames ->
  length (heap w) = 12%nat ->
  exists lf joints_data,
    last frames = Some lf /\
    export_animation av frames "json" w
    = inr (json_dumps
             (PDict [("frames",
                      PList (map (fun f => PDict [("timestamp", PFloat (timestamp f));
                                                  ("joints", PDict joints_data)])
                                 frames));
                     ("duration", PFloat (timestamp lf))]) 2, w) /\
    dict_keys joints_data = dict_keys (skeleton av) /\
    Forall2 (joint_exported w) (skeleton av) joints_data.
Proof.
  intros Hs H Hlen. apply started_inv in Hs as [-> ->].
  destruct (catalog_last _ _ H) as (lf & Hl & _).
  assert (Hshare : forall f, In f frames -> joints f = sk0)
    by (intros f; apply (catalog_frames_share name frames f H)).
  assert (Hsk : frames_in_store w [mkFrame 0 sk0])
    by (apply sk0_in_store; [assumption|intros f [<-|[]]; reflexivity]).
  destruct (Hsk (mkFrame 0 sk0)) as [Hnd Hrefs]; [now left|].
  destruct (export_joints_run w sk0 Hnd Hrefs []) as (jd & Hjd & Hrel);
    [intros n _ []|].
  exists lf, jd. split; [assumption|]. split; [|split; [|exact Hrel]].
  - unfold export_animation.
    change (String.eqb "json" "json") with true. cbv iota. unfold bind.
    rewrite (export_shared_frames w sk0 jd frames Hjd Hshare []), Hl.
    reflexivity.
  - clear - Hrel. simpl skeleton. unfold dict_keys.
    induction Hrel as [|[n a] [n' v] d out [Hn _] _ IH]; simpl; [reflexivity|].
    simpl in Hn. now rewrite Hn, IH.
Qed.

Lemma exported_gesture_is_static_witness :
  started engine engine_world /\
  dict_get "FOOD" (gesture_database engine) = Some (samples 12 11.0 1.5) /\
  length (heap engine_world) = 12%nat /\
  exists lf, last (samples 12 11.0 1.5) = Some lf.
Proof.
  split; [apply init_run|]. split; [reflexivity|]. split; [reflexivity|].
  destruct (exported_gesture_is_static engine engine_world "FOOD" _ engine_world
              init_run eq_refl eq_refl) as (lf & _ & Hl & _).
  now exists lf.
Defined.

(** ** The caller: [text_to_gesture] *)

Lemma nondecreasing_take n frames :
  nondecreasing frames -> nondecreasing (take n frames).
Proof.
  unfold nondecreasing. intros H.
  rewrite <- (take_drop n frames), timestamps_app in H.
  now apply StronglySorted_app in H as (_ & H & _).
Qed.

(** X14: with an engine whose catalog is well timed (the started engine
    is), the body of the [try] in [text_to_gesture] never raises, so the
    fallback of the [except] branch is not reached; it returns, for the
    first ten frames of the composed timeline and no more, entries with
    gesture ['GESTURE'], duration 1.0 and the frame's timestamp, in
    non-decreasing order of timestamp, and logs nothing. *)
Theorem text_to_gesture_reports_frames avatar_system text w :
  well_timed (gesture_database avatar_system) ->
  exists frames,
    animate_text avatar_system text w = inr (frames, w) /\
    text_to_gesture_sequence avatar_system text w
    = inr (map (fun f => mkEntry "GESTURE" 1.0 (timestamp f)) (take 10 frames), w) /\
    (length (take 10 frames) <= 10)%nat /\
    StronglySorted Rle (map timestamp (take 10 frames)).
Proof.
  intros Hdb.
  destruct (animate_text_nondecreasing avatar_system text w Hdb) as (frames & Hrun & Hs).
  exists frames. split; [assumption|]. split; [|split].
  - unfold text_to_gesture_sequence, bind. rewrite Hrun.
    apply (for_each_append (fun f => mkEntry "GESTURE" 1.0 (timestamp f))).
  - rewrite length_take. lia.
  - now apply nondecreasing_take.
Qed.

Lemma text_to_gesture_reports_frames_witness :
  well_timed (gesture_database engine) /\
  exists frames,
    animate_text engine "Hello, yes" engine_world = inr (frames, engine_world) /\
    text_to_gesture_sequence engine "Hello, yes" engine_world
    = inr (map (fun f => mkEntry "GESTURE" 1.0 (timestamp f)) (take 10 frames),
           engine_world).
Proof.
  split; [apply catalog_well_timed|].
  destruct (text_to_gesture_reports_frames engine "Hello, yes" engine_world
              catalog_well_timed) as (frames & H1 & H2 & _).
  exists frames. now split.
Defined.

(** ** Names in the store *)

(** X15: after start-up every joint is stored under its own name, and
    its parent and children fields are those [_create_skeleton] gave it:
    building the catalog has changed positions and rotations only. *)
Theorem joints_keep_their_names av w sk wr k j :
  started av w ->
  _create_skeleton empty_world = inr (sk, wr) ->
  lookup_joint w (skeleton av) k = Some j ->
  skeleton av = sk /\
  name j = k /\
  exists j0,
    lookup_joint wr sk k = Some j0 /\
    name j0 = k /\ parent j = parent j0 /\ children j = children j0.
Proof.
  intros Hs Hc H. apply started_inv in Hs as [-> ->].
  rewrite create_skeleton_run in Hc. injection Hc as <- <-.
  split; [reflexivity|].
  each_joint H; (split; [reflexivity|]); eexists; (split; [reflexivity|]);
    repeat split.
Qed.

Lemma joints_keep_their_names_witness :
  started engine engine_world /\
  _create_skeleton empty_world = inr (sk0, rest_world) /\
  (exists j, lookup_joint engine_world (skeleton engine) "right_hand" = Some j /\
             name j = "right_hand").
Proof.
  split; [apply init_run|]. split; [apply create_skeleton_run|].
  eexists. split; [reflexivity|].
  apply (joints_keep_their_names engine engine_world sk0 rest_world "right_hand" _
           init_run create_skeleton_run eq_refl).
Defined.

(** ** The skeleton in a store that is not empty *)

Lemma deref_after h L lg a k j :
  a = (length h + k)%nat -> L !! k = Some j ->
  deref a (mkWorld (h ++ L) lg) = inr (j, mkWorld (h ++ L) lg).
Proof.
  intros -> Hk. unfold deref. simpl.
  rewrite lookup_app_r by lia.
  replace (length h + k - length h)%nat with k by lia. now rewrite Hk.
Qed.

Lemma children_append_after h L lg a k j c :
  a = (length h + k)%nat -> L !! k = Some j ->
  children_append a c (mkWorld (h ++ L) lg)
  = inr (tt, mkWorld (h ++ <[k := with_child c j]> L) lg).
Proof.
  intros -> Hk. unfold children_append, update. simpl.
  rewrite lookup_app_r by lia.
  replace (length h + k - length h)%nat with k by lia. rewrite Hk.
  now rewrite insert_app_r.
Qed.

#[local] Arguments deref : simpl never.
#[local] Arguments children_append : simpl never.

Ltac at_joint k :=
  unfold bind at 1; cbv beta;
  erewrite (deref_after _ _ _ _ k) by (try lia; reflexivity); simpl.
Ltac to_parent k :=
  erewrite (children_append_after _ _ _ _ k) by (try lia; reflexivity); simpl.

(** X16: in any store, [_create_skeleton] never raises and logs nothing;
    it leaves the objects already there as they are and appends the
    twelve joints of the rest pose after them, and the dictionary it
    returns holds their addresses. *)
Theorem create_skeleton_in_any_store w :
  _create_skeleton w
  = inr (shift (length (heap w)) sk0, mkWorld (heap w ++ rest_heap) (log w)).
Proof.
  destruct w as [h lg].
  unfold _create_skeleton, Joint_new.
  cbv beta iota delta [bind alloc heap log].
  rewrite <- !app_assoc. cbn [app].
  rewrite !length_app. cbn [length]. simpl.
  at_joint 0%nat. at_joint 1%nat. at_joint 2%nat.
  at_joint 3%nat. to_parent 2%nat.
  at_joint 4%nat. to_parent 3%nat.
  at_joint 5%nat. to_parent 4%nat.
  at_joint 6%nat.
  at_joint 7%nat. to_parent 6%nat.
  at_joint 8%nat. to_parent 7%nat.
  at_joint 9%nat. to_parent 8%nat.
  at_joint 10%nat. at_joint 11%nat.
  unfold ret, shift. simpl. rewrite Nat.add_0_r. reflexivity.
Qed.
